(** * Assessment status page: polling client and result normalisation

    A shallow embedding of the status page of the car-damage assessment
    front end ([AssessmentPage] and [normalizeResults], with the types of
    [types.ts]) and the properties of its polling session.

    The component is a React function component.  Its [useState] cells and
    [useRef] cells are the fields of [Session]; the browser's interval table
    and the requests awaiting a response are the remaining fields of
    [World].  Every callback of the component is a function [World -> World]
    that takes, as an explicit argument, the values its closure captured. *)

From stdpp Require Import base option list strings gmap fin_maps.
From Stdlib Require Import ZArith.

Open Scope string_scope.

(** ** JavaScript values *)

Module Js.

(** A value that may be [undefined] or [null] is an [option]. *)

(** [a ?? b]: the right operand only when the left one is nullish. *)
Definition nullish {A : Type} (a b : option A) : option A :=
  match a with
  | Some x => Some x
  | None => b
  end.

(** Truthiness of a string that may be missing: [undefined], [null] and the
    empty string are falsy. *)
Definition truthy (a : option string) : bool :=
  match a with
  | Some s => negb (bool_decide (s = ""))
  | None => false
  end.

(** A value of type [any] that is neither [undefined] nor [null]: a string,
    or something else (a number, a boolean, an array, an object), of which
    the pages only ever test whether it is truthy. *)
Inductive value : Type :=
  | str (s : string)
  | other (is_true : bool).

Definition is_truthy (v : value) : bool :=
  match v with
  | str s => negb (bool_decide (s = ""))
  | other is_true => is_true
  end.

(** Truthiness of a value that may be missing. *)
Definition truthy_any (a : option value) : bool :=
  match a with
  | Some v => is_truthy v
  | None => false
  end.

(** [a || b]: the left operand when it is truthy, else the right one. *)
Definition or (a b : option value) : option value :=
  if truthy_any a then a else b.

(** [o[key] = v] on an object made by the literal [{}], whose own properties
    are the map.  [Object.prototype] has one setter, [__proto__]: assigning
    under that key changes the prototype of the object and gives it no own
    property; every other key gets an own property. *)
Definition assign {A : Type} (key : string) (v : A) (o : gmap string A)
  : gmap string A :=
  if bool_decide (key = "__proto__") then o else <[key := v]> o.

End Js.

Infix "??" := Js.nullish (at level 45, right associativity).

(** ** Types of [types.ts] *)

Inductive AssessmentStatus : Type :=
  | pending
  | in_progress
  | complete
  | failed
  | not_found.

#[global] Instance AssessmentStatus_eq_dec : EqDecision AssessmentStatus.
Proof. solve_decision. Defined.

(** [SideAssessment].  The response is JSON that [axios.get<AssessmentResponse>]
    casts without checking it, so a field the interface declares as [string]
    can still be missing at run time: every image reference is an [option].
    The [result] bag of backend metadata is never read by the page and is
    left out. *)
Record SideAssessment : Type := mkSideAssessment {
  pickup_image : option string;
  return_image : option string;
  annotated_return_image : option string
}.

(** [AssessmentResultMap]: side key to [SideAssessment | undefined]. *)
Abbreviation AssessmentResultMap := (gmap string (option SideAssessment)).

Record AssessmentResponse : Type := mkAssessmentResponse {
  resp_status : AssessmentStatus;
  resp_created_at : option string;
  resp_completed_at : option string;
  resp_results : option AssessmentResultMap;
  resp_summary : option string;
  resp_error : option string
}.

Record AssessmentDisplayResult : Type := mkDisplay {
  pickupUrl : option string;
  resultUrl : option string
}.

Abbreviation ResultsState := (gmap string AssessmentDisplayResult).

(** ** [normalizeResults] *)

(** [Object.entries]: the own enumerable properties of the object.  The
    order in which they come does not reach the result of the loop below,
    which is a map and receives each key once. *)
Definition Object_entries (results : AssessmentResultMap)
  : list (string * option SideAssessment) :=
  map_to_list results.

(** One turn of the [for ... of] loop. *)
Definition normalize_entry (normalized : ResultsState)
    (entry : string * option SideAssessment) : ResultsState :=
  match entry with
  | (side, None) => normalized
  | (side, Some sideData) =>
      Js.assign side
        {| pickupUrl := pickup_image sideData;
           resultUrl := annotated_return_image sideData
                        ?? return_image sideData |}
        normalized
  end.

Definition normalizeResults (results : option AssessmentResultMap) : ResultsState :=
  match results with
  | None => ∅
  | Some results => foldl normalize_entry ∅ (Object_entries results)
  end.

(** ** The error a rejected request throws *)

(** [e.response]: the status code and the two fields of the body that the
    page reads ([data?.detail], [data?.message]).  The body is of type
    [any]: the two fields can hold any value. *)
Record AxiosResponse : Type := mkAxiosResponse {
  res_status : Z;
  res_detail : option Js.value;
  res_message : option Js.value
}.

(** The value caught by [catch (e: any)]. *)
Record Thrown : Type := mkThrown {
  isAxiosError : bool;
  response : option AxiosResponse;
  message : option Js.value
}.

(** How one request ends. *)
Inductive Outcome : Type :=
  | FetchOk (data : AssessmentResponse)
  | FetchError (e : Thrown).

(** ** State of the page *)

Definition POLL_INTERVAL_MS : Z := 5000.

(** The [useState] cells and the [useRef] cells of [AssessmentPage]. *)
Record Session : Type := mkSession {
  status : option AssessmentStatus;
  results : ResultsState;
  summary : option string;
  isPolling : bool;
  error : option Js.value;
  isInitialLoading : bool;
  lastStatusRef : option AssessmentStatus;
  pollTimerRef : option nat;
  isMountedRef : bool
}.

(** What [fetchAssessmentStatus] closes over: the dependencies of its
    [useCallback].  A later render makes a new closure; an interval or a
    pending request keeps the one it was created with. *)
Record Closure : Type := mkClosure {
  cl_uploadId : option string;
  cl_isInitialLoading : bool
}.

#[global] Instance Closure_eq_dec : EqDecision Closure.
Proof. solve_decision. Defined.

(** An entry of the browser's interval table. *)
Record Interval : Type := mkInterval {
  iv_id : nat;
  iv_delay : Z;
  iv_callback : Closure
}.

Record World : Type := mkWorld {
  session : Session;
  intervals : list Interval;
  nextTimerId : nat;
  (** requests sent and not yet settled, each with the closure that sent it *)
  inflight : list Closure;
  (** the route parameter *)
  uploadId : option string;
  (** the component is in the tree *)
  attached : bool;
  (** the closure the effect last ran with *)
  effectDeps : Closure
}.

Definition Stmt : Type := World → World.

Definition skip : Stmt := λ w, w.
Definition seq (a b : Stmt) : Stmt := λ w, b (a w).
Definition when (b : bool) (a : Stmt) : Stmt := if b then a else skip.

Notation "a >>> b" := (seq a b) (at level 61, left associativity).

(** *** Assignments *)

(** Each assignment takes the record apart and rebuilds it with one field
    replaced. *)

Definition on_session (f : Session → Session) : Stmt := λ w,
  let 'mkWorld s ivs nx inf up att ed := w in
  mkWorld (f s) ivs nx inf up att ed.

Definition setStatus (v : option AssessmentStatus) : Stmt :=
  on_session (λ s, let 'mkSession st rs sm ip er il ls pt mt := s in
                   mkSession v rs sm ip er il ls pt mt).

Definition setResults (v : ResultsState) : Stmt :=
  on_session (λ s, let 'mkSession st rs sm ip er il ls pt mt := s in
                   mkSession st v sm ip er il ls pt mt).

Definition setSummary (v : option string) : Stmt :=
  on_session (λ s, let 'mkSession st rs sm ip er il ls pt mt := s in
                   mkSession st rs v ip er il ls pt mt).

Definition setIsPolling (v : bool) : Stmt :=
  on_session (λ s, let 'mkSession st rs sm ip er il ls pt mt := s in
                   mkSession st rs sm v er il ls pt mt).

Definition setError (v : option Js.value) : Stmt :=
  on_session (λ s, let 'mkSession st rs sm ip er il ls pt mt := s in
                   mkSession st rs sm ip v il ls pt mt).

Definition setIsInitialLoading (v : bool) : Stmt :=
  on_session (λ s, let 'mkSession st rs sm ip er il ls pt mt := s in
                   mkSession st rs sm ip er v ls pt mt).

Definition set_lastStatusRef (v : option AssessmentStatus) : Stmt :=
  on_session (λ s, let 'mkSession st rs sm ip er il ls pt mt := s in
                   mkSession st rs sm ip er il v pt mt).

Definition set_pollTimerRef (v : option nat) : Stmt :=
  on_session (λ s, let 'mkSession st rs sm ip er il ls pt mt := s in
                   mkSession st rs sm ip er il ls v mt).

Definition set_isMountedRef (v : bool) : Stmt :=
  on_session (λ s, let 'mkSession st rs sm ip er il ls pt mt := s in
                   mkSession st rs sm ip er il ls pt v).

(** *** The browser's timers and the network *)

(** [window.setInterval(callback, delay)]: a fresh id, and a new table entry. *)
Definition window_setInterval (callback : Closure) (delay : Z) (w : World)
  : nat * World :=
  let 'mkWorld s ivs nx inf up att ed := w in
  (nx, mkWorld s (ivs ++ [mkInterval nx delay callback]) (S nx) inf up att ed).

Definition clearInterval (id : nat) : Stmt := λ w,
  let 'mkWorld s ivs nx inf up att ed := w in
  mkWorld s (filter (λ iv, iv_id iv ≠ id) ivs) nx inf up att ed.

(** [axios.get] is called: one more request awaits its response. *)
Definition axios_get (sender : Closure) : Stmt := λ w,
  let 'mkWorld s ivs nx inf up att ed := w in
  mkWorld s ivs nx (inf ++ [sender]) up att ed.

(** ** The callbacks of [AssessmentPage] *)

Definition shouldContinuePolling (currentStatus : option AssessmentStatus) : bool :=
  match currentStatus with
  | None => true
  | Some s => negb (bool_decide (s ∈ [complete; failed; not_found]))
  end.

(** [if (pollTimerRef.current !== null) { clearInterval(pollTimerRef.current);
    pollTimerRef.current = null; }] *)
Definition clearPollTimer : Stmt := λ w,
  match pollTimerRef (session w) with
  | Some id => (clearInterval id >>> set_pollTimerRef None) w
  | None => w
  end.

(** [fetchAssessmentStatus] up to its [await]. *)
Definition fetchAssessmentStatus_request (c : Closure) : Stmt :=
  if Js.truthy (cl_uploadId c) then axios_get c else skip.

(** [fetchAssessmentStatus] after the [await], when the request succeeded:
    the rest of the [try] block. *)
Definition fetchAssessmentStatus_resolved (c : Closure) (data : AssessmentResponse)
  : Stmt := λ w,
  if negb (isMountedRef (session w)) then w else
  let new_status := resp_status data in
  let raw := resp_results data in
  let text := resp_summary data in
  (when (bool_decide (Some new_status ≠ lastStatusRef (session w))
         || cl_isInitialLoading c)
     (setStatus (Some new_status) >>>
      set_lastStatusRef (Some new_status) >>>
      when (bool_decide (is_Some raw)) (setResults (normalizeResults raw)) >>>
      when (Js.truthy text) (setSummary text) >>>
      setError None) >>>
   when (cl_isInitialLoading c) (setIsInitialLoading false) >>>
   when (negb (shouldContinuePolling (Some new_status)))
     (setIsPolling false >>> clearPollTimer)) w.

(** [e.response?.status === 404] *)
Definition is404 (e : Thrown) : bool :=
  bool_decide (res_status <$> response e = Some 404%Z).

(** The message shown for a failed request that is an axios error. *)
Definition axios_message (e : Thrown) : option Js.value :=
  Js.or (response e ≫= res_detail)
    (Js.or (response e ≫= res_message)
       (Js.or (message e)
          (Some (Js.str "Unable to contact the assessment service. Please check your connection.")))).

(** The message shown for any other thrown value. *)
Definition other_message (e : Thrown) : option Js.value :=
  message e
  ?? Some (Js.str "An unexpected error occurred while fetching assessment status.").

(** [fetchAssessmentStatus] after the [await], when the request failed: the
    [catch] block. *)
Definition fetchAssessmentStatus_rejected (c : Closure) (e : Thrown) : Stmt := λ w,
  if negb (isMountedRef (session w)) then w else
  if isAxiosError e then
    if is404 e then
      (setStatus (Some not_found) >>>
       set_lastStatusRef (Some not_found) >>>
       setIsPolling false >>>
       clearPollTimer >>>
       when (cl_isInitialLoading c) (setIsInitialLoading false)) w
    else
      (setError (axios_message e) >>>
       when (cl_isInitialLoading c) (setIsInitialLoading false)) w
  else
    (setError (other_message e) >>>
     when (cl_isInitialLoading c) (setIsInitialLoading false)) w.

Definition fetchAssessmentStatus_settled (c : Closure) (o : Outcome) : Stmt :=
  match o with
  | FetchOk data => fetchAssessmentStatus_resolved c data
  | FetchError e => fetchAssessmentStatus_rejected c e
  end.

(** [startPolling]; [c] is the [fetchAssessmentStatus] it closes over. *)
Definition startPolling (c : Closure) : Stmt := λ w,
  match pollTimerRef (session w) with
  | Some _ => w
  | None =>
      let w := setIsPolling true w in
      let '(id, w) := window_setInterval c POLL_INTERVAL_MS w in
      set_pollTimerRef (Some id) w
  end.

Definition stopPolling : Stmt :=
  setIsPolling false >>> clearPollTimer.

(** The body of the [useEffect] and the clean-up it returns. *)
Definition effect_body (c : Closure) : Stmt :=
  set_isMountedRef true >>> startPolling c.

Definition effect_cleanup : Stmt :=
  set_isMountedRef false >>> stopPolling.

(** ** The page over time *)

(** The closure a render of the page creates. *)
Definition rendered_closure (w : World) : Closure :=
  {| cl_uploadId := uploadId w;
     cl_isInitialLoading := isInitialLoading (session w) |}.

Definition set_effectDeps (c : Closure) : Stmt := λ w,
  let 'mkWorld s ivs nx inf up att ed := w in
  mkWorld s ivs nx inf up att c.

Definition set_attached (b : bool) : Stmt := λ w,
  let 'mkWorld s ivs nx inf up att ed := w in
  mkWorld s ivs nx inf up b ed.

(** The [i]-th pending request leaves the list of pending requests. *)
Definition take_inflight (i : nat) : Stmt := λ w,
  let 'mkWorld s ivs nx inf up att ed := w in
  mkWorld s ivs nx (delete i inf) up att ed.

(** The page as its first render leaves it: the initial values of the cells,
    no timer, nothing sent. *)
Definition first_render (id : option string) : World :=
  {| session := {| status := None; results := ∅; summary := None;
                   isPolling := false; error := None;
                   isInitialLoading := true; lastStatusRef := None;
                   pollTimerRef := None; isMountedRef := true |};
     intervals := []; nextTimerId := 1; inflight := [];
     uploadId := id; attached := true;
     effectDeps := {| cl_uploadId := id; cl_isInitialLoading := true |} |}.

(** The first render followed by the first run of the effect. *)
Definition mount (id : option string) : World :=
  effect_body (rendered_closure (first_render id)) (first_render id).

(** When a render changed [startPolling] (that is, [fetchAssessmentStatus],
    that is, [isInitialLoading]), React runs the clean-up of the previous
    effect and then the effect again. *)
Definition rerun_effect : Stmt := λ w,
  if decide (rendered_closure w = effectDeps w) then w
  else (effect_cleanup >>>
        effect_body (rendered_closure w) >>>
        set_effectDeps (rendered_closure w)) w.

Inductive Event : Type :=
  | Tick (id : nat)                 (** the interval [id] fires *)
  | Settle (i : nat) (o : Outcome)  (** the [i]-th pending request ends *)
  | Render                          (** React commits a render *)
  | Dismiss                         (** [onClose] of the error banner *)
  | Unmount.                        (** the page leaves the tree *)

Definition exec (ev : Event) (w : World) : option World :=
  match ev with
  | Tick id =>
      iv ← list_find (λ iv, iv_id iv = id) (intervals w);
      Some (fetchAssessmentStatus_request (iv_callback iv.2) w)
  | Settle i o =>
      c ← inflight w !! i;
      Some ((take_inflight i >>> fetchAssessmentStatus_settled c o) w)
  | Render =>
      if attached w then Some (rerun_effect w) else None
  | Dismiss =>
      if attached w then Some (setError None w) else None
  | Unmount =>
      if attached w then Some ((effect_cleanup >>> set_attached false) w)
      else None
  end.

Fixpoint run (evs : list Event) (w : World) : option World :=
  match evs with
  | [] => Some w
  | ev :: evs => w' ← exec ev w; run evs w'
  end.

(** The worlds a page can be in. *)
Definition Reachable (w : World) : Prop :=
  ∃ id evs, run evs (mount id) = Some w.

(** ** Sample values *)

Definition sample_results : AssessmentResultMap :=
  {[ "front" := Some {| pickup_image := Some "p.jpg";
                        return_image := Some "r.jpg";
                        annotated_return_image := Some "a.jpg" |} ]}.

Definition ok (st : AssessmentStatus) (raw : option AssessmentResultMap)
    (text : option string) : Outcome :=
  FetchOk {| resp_status := st; resp_created_at := None;
             resp_completed_at := None; resp_results := raw;
             resp_summary := text; resp_error := None |}.

Definition late_closure : Closure :=
  {| cl_uploadId := Some "job"; cl_isInitialLoading := false |}.

(** The world a list of events leads to from a fresh page for job ["job"]
    (the fresh page itself when the list cannot run). *)
Definition world_after (evs : list Event) : World :=
  default (mount (Some "job")) (run evs (mount (Some "job"))).

Definition pending_with_payload : AssessmentResponse :=
  {| resp_status := pending; resp_created_at := None;
     resp_completed_at := None; resp_results := Some sample_results;
     resp_summary := Some "Scratch on the front bumper."; resp_error := None |}.

Definition network_error : Thrown :=
  {| isAxiosError := true; response := None; message := Some (Js.str "Network Error") |}.

Definition error_404 : Thrown :=
  {| isAxiosError := true;
     response := Some {| res_status := 404;
                         res_detail := Some (Js.str "Assessment not found");
                         res_message := None |};
     message := Some (Js.str "Request failed with status code 404") |}.

(** The page after the first response ([pending], nothing else) and the
    re-run of the effect, with one more request on its way. *)
Definition polling_pending : list Event :=
  [Tick 1; Settle 0 (ok pending None None); Render; Tick 2].

(** The page showing results, a summary and the message of a failed
    request, with one more request on its way. *)
Definition results_then_error : list Event :=
  (polling_pending
   ++ [Settle 0 (ok in_progress (Some sample_results)
                   (Some "Scratch on the front bumper."));
       Tick 2; Settle 0 (FetchError network_error); Tick 2])%list.

(** Two requests on their way, then the later one answers [complete]. *)
Definition completed_early : list Event :=
  (polling_pending
   ++ [Tick 2;
       Settle 1 (ok complete (Some sample_results) (Some "No new damage."))])%list.

(** ** Vocabulary of the properties *)

(** What the loop stores for one present side. *)
Definition display_of (sideData : SideAssessment) : AssessmentDisplayResult :=
  {| pickupUrl := pickup_image sideData;
     resultUrl := annotated_return_image sideData ?? return_image sideData |}.

(** Every armed interval is the one [pollTimerRef] holds. *)
Definition timers_owned (w : World) : Prop :=
  ∀ iv, iv ∈ intervals w → pollTimerRef (session w) = Some (iv_id iv).

Record Inv (w : World) : Prop := mkInv {
  inv_timers : timers_owned w;
  (** the [status] cell and [lastStatusRef] are written together *)
  inv_status : status (session w) = lastStatusRef (session w);
  (** between events, [isMountedRef] tells whether the page is in the tree *)
  inv_mounted : isMountedRef (session w) = attached w
}.

(** The set of timers left by the two lines that disarm the timer. *)
Definition disarmed (w : World) : list Interval :=
  match pollTimerRef (session w) with
  | Some id => filter (λ iv, iv_id iv ≠ id) (intervals w)
  | None => intervals w
  end.

(** The message a failed request leaves in [error] when it is not a 404. *)
Definition error_message (e : Thrown) : option Js.value :=
  if isAxiosError e then axios_message e else other_message e.

(** The test that guards the update in the [try] block, for a response that
    reaches a mounted page: [status !== lastStatusRef.current ||
    isInitialLoading]. *)
Definition commits (c : Closure) (data : AssessmentResponse) (w : World) : bool :=
  isMountedRef (session w)
  && (bool_decide (Some (resp_status data) ≠ lastStatusRef (session w))
      || cl_isInitialLoading c).

(** A run of successful responses handled by one closure. *)
Definition resolve_all (c : Closure) (datas : list AssessmentResponse) : Stmt :=
  λ w, foldl (λ w data, fetchAssessmentStatus_resolved c data w) w datas.

(** The status an outcome brings, if any. *)
Definition reported (o : Outcome) : option AssessmentStatus :=
  match o with
  | FetchOk data => Some (resp_status data)
  | FetchError e => if isAxiosError e && is404 e then Some not_found else None
  end.

(** A page that has left the tree. *)
Definition detached (w : World) : Prop :=
  attached w = false ∧ isMountedRef (session w) = false ∧ intervals w = [].

(** ** The normalisation loop *)

Section NormalizeLoop.

Implicit Types (entries : list (string * option SideAssessment)).
Implicit Types (acc : ResultsState) (side : string).

Lemma assign_lookup_ne {A} (key side : string) (v : A) (o : gmap string A) :
  key ≠ side → Js.assign key v o !! side = o !! side.
Proof.
  intros Hne. unfold Js.assign. case_bool_decide; [done|].
  by rewrite lookup_insert_ne.
Qed.

Lemma assign_lookup_proto {A} (key : string) (v : A) (o : gmap string A) :
  Js.assign key v o !! "__proto__" = o !! "__proto__".
Proof.
  unfold Js.assign. case_bool_decide as Hk; [done|].
  by rewrite lookup_insert_ne.
Qed.

Lemma assign_lookup_eq {A} (side : string) (v : A) (o : gmap string A) :
  side ≠ "__proto__" → Js.assign side v o !! side = Some v.
Proof.
  intros Hne. unfold Js.assign. rewrite bool_decide_eq_false_2 by done.
  by rewrite lookup_insert_eq.
Qed.

Lemma normalize_loop_absent entries acc side :
  side ∉ entries.*1 →
  foldl normalize_entry acc entries !! side = acc !! side.
Proof.
  revert acc. induction entries as [|[k v] entries IH]; intros acc Hnot; [done|].
  cbn in Hnot. apply not_elem_of_cons in Hnot as [Hne Hnot].
  cbn. rewrite IH by done.
  destruct v as [d|]; cbn; [|done].
  by rewrite assign_lookup_ne.
Qed.

(** The loop never gives the result an own property [__proto__]. *)
Lemma normalize_loop_proto entries acc :
  foldl normalize_entry acc entries !! "__proto__" = acc !! "__proto__".
Proof.
  revert acc. induction entries as [|[k v] entries IH]; intros acc; [done|].
  cbn. rewrite IH. destruct v as [d|]; cbn; [|done].
  apply assign_lookup_proto.
Qed.

Lemma normalize_loop_present entries acc side v :
  side ≠ "__proto__" →
  NoDup entries.*1 →
  (side, v) ∈ entries →
  foldl normalize_entry acc entries !! side
  = match v with Some d => Some (display_of d) | None => acc !! side end.
Proof.
  intros Hside.
  revert acc. induction entries as [|[k u] entries IH]; intros acc Hnd Hin.
  - by apply elem_of_nil in Hin.
  - cbn in Hnd. apply NoDup_cons in Hnd as [Hk Hnd].
    apply elem_of_cons in Hin as [Heq|Hin].
    + injection Heq as <- <-. cbn.
      rewrite normalize_loop_absent by done.
      destruct v as [d|]; cbn; [|done].
      by rewrite assign_lookup_eq.
    + cbn. rewrite (IH _ Hnd Hin).
      destruct v as [d|]; [done|].
      destruct u as [d'|]; cbn; [|done].
      apply assign_lookup_ne. intros ->.
      apply Hk. apply list_elem_of_fmap. by exists (side, None).
Qed.

End NormalizeLoop.

(** The output at a side is decided by the input at that side alone, and
    the output never has the side [__proto__]. *)
Lemma normalizeResults_lookup (results : AssessmentResultMap) (side : string) :
  normalizeResults (Some results) !! side
  = if bool_decide (side = "__proto__") then None
    else match results !! side with
         | Some (Some sideData) => Some (display_of sideData)
         | _ => None
         end.
Proof.
  unfold normalizeResults, Object_entries. case_bool_decide as Hp.
  - subst side. by rewrite normalize_loop_proto, lookup_empty.
  - destruct (results !! side) as [v|] eqn:Hlk.
    + rewrite (normalize_loop_present _ _ side v).
      * destruct v; [done|]. by rewrite lookup_empty.
      * done.
      * apply NoDup_fst_map_to_list.
      * by apply elem_of_map_to_list.
    + rewrite normalize_loop_absent; [by rewrite lookup_empty|].
      intros Hin. apply list_elem_of_fmap in Hin as [[k v] [-> Hin]].
      apply elem_of_map_to_list in Hin. cbn in Hlk. congruence.
Qed.

(** ** Invariants of the reachable worlds *)

Ltac unfold_page :=
  unfold fetchAssessmentStatus_settled, fetchAssessmentStatus_resolved,
    fetchAssessmentStatus_rejected, fetchAssessmentStatus_request,
    rerun_effect, effect_cleanup, effect_body, stopPolling, startPolling,
    clearPollTimer, take_inflight, axios_get, set_attached, set_effectDeps,
    window_setInterval, clearInterval,
    setStatus, setResults, setSummary, setIsPolling, setError,
    setIsInitialLoading, set_lastStatusRef, set_pollTimerRef,
    set_isMountedRef, on_session, when, seq, skip in *.

Lemma owned_filter_nil (ivs : list Interval) (id : nat) :
  (∀ iv, iv ∈ ivs → Some id = Some (iv_id iv)) →
  filter (λ iv, iv_id iv ≠ id) ivs = [].
Proof.
  intros Hown. destruct (filter _ ivs) as [|iv l] eqn:E; [done|].
  assert (Hin : iv ∈ filter (λ iv, iv_id iv ≠ id) ivs) by (rewrite E; left).
  apply list_elem_of_filter in Hin as [Hne Hin].
  apply Hown in Hin. congruence.
Qed.

Lemma owned_none_nil (ivs : list Interval) :
  (∀ iv, iv ∈ ivs → @None nat = Some (iv_id iv)) → ivs = [].
Proof.
  intros Hown. destruct ivs as [|iv l]; [done|].
  specialize (Hown iv). discriminate Hown. left.
Qed.

Ltac proj_simpl :=
  cbn [session intervals nextTimerId inflight uploadId attached effectDeps
       status results summary isPolling error isInitialLoading lastStatusRef
       pollTimerRef isMountedRef negb andb orb] in *.

Ltac open_world w :=
  destruct w as [[st rs sm ip er il ls pt mt] ivs nx inf up att ed];
  unfold timers_owned in *; proj_simpl.

(** *** What one settled request does, field by field *)

Lemma resolved_unmounted c data w :
  isMountedRef (session w) = false → fetchAssessmentStatus_resolved c data w = w.
Proof. intros H. unfold fetchAssessmentStatus_resolved. by rewrite H. Qed.

Lemma rejected_unmounted c e w :
  isMountedRef (session w) = false → fetchAssessmentStatus_rejected c e w = w.
Proof. intros H. unfold fetchAssessmentStatus_rejected. by rewrite H. Qed.

Lemma resolved_mounted c data w :
  isMountedRef (session w) = true →
  let s := session w in
  let commit := bool_decide (Some (resp_status data) ≠ lastStatusRef s)
                || cl_isInitialLoading c in
  let stop := negb (shouldContinuePolling (Some (resp_status data))) in
  fetchAssessmentStatus_resolved c data w
  = {| session :=
         {| status := if commit then Some (resp_status data) else status s;
            results := if commit && bool_decide (is_Some (resp_results data))
                       then normalizeResults (resp_results data) else results s;
            summary := if commit && Js.truthy (resp_summary data)
                       then resp_summary data else summary s;
            isPolling := if stop then false else isPolling s;
            error := if commit then None else error s;
            isInitialLoading := if cl_isInitialLoading c then false
                                else isInitialLoading s;
            lastStatusRef := if commit then Some (resp_status data)
                             else lastStatusRef s;
            pollTimerRef := if stop then None else pollTimerRef s;
            isMountedRef := true |};
       intervals := if stop then disarmed w else intervals w;
       nextTimerId := nextTimerId w; inflight := inflight w;
       uploadId := uploadId w; attached := attached w;
       effectDeps := effectDeps w |}.
Proof.
  intros Hm s commit stop. subst s.
  unfold fetchAssessmentStatus_resolved. rewrite Hm. cbv zeta. proj_simpl.
  fold commit stop. unfold disarmed. clearbody commit stop.
  open_world w. subst mt.
  unfold_page. proj_simpl.
  destruct commit, stop, (bool_decide (is_Some (resp_results data))),
    (Js.truthy (resp_summary data)), (cl_isInitialLoading c), pt;
    reflexivity.
Qed.

Lemma Inv_mount id : Inv (mount id).
Proof.
  split; unfold mount, first_render, rendered_closure; unfold_page; cbn; [|done..].
  intros iv Hin. apply list_elem_of_singleton in Hin as ->. done.
Qed.

Lemma rejected_404 c e w :
  isMountedRef (session w) = true →
  isAxiosError e = true → is404 e = true →
  let s := session w in
  fetchAssessmentStatus_rejected c e w
  = {| session :=
         {| status := Some not_found;
            results := results s;
            summary := summary s;
            isPolling := false;
            error := error s;
            isInitialLoading := if cl_isInitialLoading c then false
                                else isInitialLoading s;
            lastStatusRef := Some not_found;
            pollTimerRef := None;
            isMountedRef := true |};
       intervals := disarmed w;
       nextTimerId := nextTimerId w; inflight := inflight w;
       uploadId := uploadId w; attached := attached w;
       effectDeps := effectDeps w |}.
Proof.
  intros Hm Hax H404 s. subst s.
  unfold fetchAssessmentStatus_rejected. rewrite Hm, Hax, H404.
  unfold disarmed. open_world w. subst mt.
  unfold_page. cbv beta iota zeta.
  destruct (cl_isInitialLoading c), pt; reflexivity.
Qed.

Lemma rejected_other c e w :
  isMountedRef (session w) = true →
  isAxiosError e && is404 e = false →
  let s := session w in
  fetchAssessmentStatus_rejected c e w
  = {| session :=
         {| status := status s;
            results := results s;
            summary := summary s;
            isPolling := isPolling s;
            error := error_message e;
            isInitialLoading := if cl_isInitialLoading c then false
                                else isInitialLoading s;
            lastStatusRef := lastStatusRef s;
            pollTimerRef := pollTimerRef s;
            isMountedRef := true |};
       intervals := intervals w;
       nextTimerId := nextTimerId w; inflight := inflight w;
       uploadId := uploadId w; attached := attached w;
       effectDeps := effectDeps w |}.
Proof.
  intros Hm Hnot s. subst s.
  unfold fetchAssessmentStatus_rejected, error_message. rewrite Hm.
  open_world w. subst mt.
  destruct (isAxiosError e); [cbn [andb] in Hnot; rewrite Hnot|];
    unfold_page; cbv beta iota zeta;
    destruct (cl_isInitialLoading c); reflexivity.
Qed.

Lemma disarmed_owned w : timers_owned w → disarmed w = [].
Proof.
  intros Hown. unfold disarmed, timers_owned in *.
  destruct (pollTimerRef (session w)) as [id|].
  - apply owned_filter_nil. intros iv Hin. symmetry. by rewrite <- Hown.
  - by apply owned_none_nil.
Qed.

Lemma timers_owned_nil w : intervals w = [] → timers_owned w.
Proof. intros E iv Hin. rewrite E in Hin. by apply elem_of_nil in Hin. Qed.

Lemma Inv_settled c o w : Inv w → Inv (fetchAssessmentStatus_settled c o w).
Proof.
  intros [Ht Hs Hm]. unfold fetchAssessmentStatus_settled.
  destruct (isMountedRef (session w)) eqn:Hmt.
  - destruct o as [data|e].
    + rewrite resolved_mounted by done. cbv zeta.
      split; proj_simpl; [|by rewrite Hs|done].
      destruct (negb (shouldContinuePolling _)).
      * apply timers_owned_nil. proj_simpl. by apply disarmed_owned.
      * exact Ht.
    + destruct (isAxiosError e && is404 e) eqn:Hk.
      * apply andb_true_iff in Hk as [Hax H404].
        rewrite rejected_404 by done. cbv zeta.
        split; proj_simpl; [|done..].
        apply timers_owned_nil. proj_simpl. by apply disarmed_owned.
      * rewrite rejected_other by done. cbv zeta.
        split; proj_simpl; done.
  - destruct o as [data|e];
      [rewrite resolved_unmounted by done|rewrite rejected_unmounted by done];
      (split; [done|done|congruence]).
Qed.

(** The clean-up disarms the timer and clears both flags. *)
Lemma effect_cleanup_unfold w :
  let s := session w in
  effect_cleanup w
  = {| session :=
         {| status := status s; results := results s; summary := summary s;
            isPolling := false; error := error s;
            isInitialLoading := isInitialLoading s;
            lastStatusRef := lastStatusRef s;
            pollTimerRef := None; isMountedRef := false |};
       intervals := disarmed w;
       nextTimerId := nextTimerId w; inflight := inflight w;
       uploadId := uploadId w; attached := attached w;
       effectDeps := effectDeps w |}.
Proof.
  cbv zeta. unfold disarmed. open_world w.
  unfold_page. cbv beta iota zeta. proj_simpl.
  destruct pt; reflexivity.
Qed.

(** [startPolling] when no timer is armed. *)
Lemma startPolling_unarmed c w :
  pollTimerRef (session w) = None →
  let s := session w in
  startPolling c w
  = {| session :=
         {| status := status s; results := results s; summary := summary s;
            isPolling := true; error := error s;
            isInitialLoading := isInitialLoading s;
            lastStatusRef := lastStatusRef s;
            pollTimerRef := Some (nextTimerId w);
            isMountedRef := isMountedRef s |};
       intervals := intervals w ++ [mkInterval (nextTimerId w) POLL_INTERVAL_MS c];
       nextTimerId := S (nextTimerId w); inflight := inflight w;
       uploadId := uploadId w; attached := attached w;
       effectDeps := effectDeps w |}.
Proof.
  intros Hn. cbv zeta. unfold startPolling. rewrite Hn.
  open_world w. unfold_page. reflexivity.
Qed.

Lemma Inv_rerun_effect w : attached w = true → Inv w → Inv (rerun_effect w).
Proof.
  intros Hatt [Ht Hs Hm]. unfold rerun_effect. case_decide; [by split|].
  unfold seq, effect_body. rewrite effect_cleanup_unfold. cbv zeta.
  rewrite (disarmed_owned w Ht).
  unfold seq, set_isMountedRef, on_session. rewrite startPolling_unarmed by done.
  cbv zeta. unfold set_effectDeps. proj_simpl.
  split; proj_simpl; [|done..].
  intros iv Hin. proj_simpl. by apply list_elem_of_singleton in Hin as ->.
Qed.

Lemma Inv_unmount w : Inv w → Inv ((effect_cleanup >>> set_attached false) w).
Proof.
  intros [Ht Hs Hm]. unfold seq. rewrite effect_cleanup_unfold. cbv zeta.
  rewrite (disarmed_owned w Ht). unfold set_attached.
  split; proj_simpl; [|done..].
  by apply timers_owned_nil.
Qed.

Lemma Inv_frame w w' :
  session w' = session w → intervals w' = intervals w →
  attached w' = attached w → Inv w → Inv w'.
Proof.
  intros Es Ei Ea [Ht Hs Hm].
  split; unfold timers_owned; rewrite ?Es, ?Ei, ?Ea; done.
Qed.

Lemma Inv_exec ev w w' : Inv w → exec ev w = Some w' → Inv w'.
Proof.
  intros HI Hex. destruct ev as [id|i o| | |]; unfold exec in Hex.
  - destruct (list_find _ _) as [[k iv]|]; simpl in Hex; [|done].
    injection Hex as <-. revert HI. apply Inv_frame;
      unfold fetchAssessmentStatus_request, axios_get, skip;
      destruct w; by case_match.
  - destruct (inflight w !! i) as [c|]; simpl in Hex; [|done].
    injection Hex as <-. unfold seq. apply Inv_settled.
    revert HI. apply Inv_frame; by destruct w.
  - destruct (attached w) eqn:E; [|done]. injection Hex as <-.
    by apply Inv_rerun_effect.
  - destruct (attached w) eqn:E; [|done]. injection Hex as <-.
    destruct HI as [Ht Hs Hm]. open_world w. by split.
  - destruct (attached w); [|done]. injection Hex as <-.
    by apply Inv_unmount.
Qed.

Lemma Inv_run evs : ∀ w w', Inv w → run evs w = Some w' → Inv w'.
Proof.
  induction evs as [|ev evs IH]; intros w w' HI Hrun; cbn in Hrun.
  - by injection Hrun as <-.
  - destruct (exec ev w) as [w1|] eqn:E; [|done].
    cbn in Hrun. eapply IH; [|done]. by eapply Inv_exec.
Qed.

Lemma Reachable_Inv w : Reachable w → Inv w.
Proof. intros (id & evs & Hrun). eapply Inv_run; [apply Inv_mount|done]. Qed.

(** ** Result normalisation *)

(** C5 (as amended).  For every side with an entry, under any key but
    [__proto__], the output has an entry for that side whose [pickupUrl] is
    the entry's [pickup_image] and whose [resultUrl] is the entry's
    [annotated_return_image] whenever that field is present at all (an empty
    string included), and the entry's [return_image] only when it is
    missing.  (An entry under the key [__proto__] sets the prototype of the
    output object and gives it no side.) *)
Theorem C5_annotated_when_present
    (raw : AssessmentResultMap) (side : string) (sideData : SideAssessment) :
  side ≠ "__proto__" →
  raw !! side = Some (Some sideData) →
  ∃ shown,
    normalizeResults (Some raw) !! side = Some shown
    ∧ pickupUrl shown = pickup_image sideData
    ∧ resultUrl shown = match annotated_return_image sideData with
                        | Some annotated => Some annotated
                        | None => return_image sideData
                        end.
Proof.
  intros Hkey Hside. exists (display_of sideData).
  rewrite normalizeResults_lookup, Hside.
  rewrite bool_decide_eq_false_2 by done.
  by repeat split.
Qed.

Lemma C5_annotated_when_present_witness :
  ∃ shown,
    normalizeResults (Some sample_results) !! "front" = Some shown
    ∧ pickupUrl shown = Some "p.jpg"
    ∧ resultUrl shown = Some "a.jpg".
Proof.
  apply (C5_annotated_when_present sample_results "front"
           {| pickup_image := Some "p.jpg"; return_image := Some "r.jpg";
              annotated_return_image := Some "a.jpg" |}).
  - discriminate.
  - vm_compute. reflexivity.
Defined.

(** C5, as the specification words it, fails: with an empty-string
    [annotated_return_image] the specification makes [comparisonImage] the
    return image ["r.jpg"]; the code keeps the empty string. *)
Lemma C5_empty_annotated_is_kept :
  normalizeResults
    (Some {[ "front" := Some {| pickup_image := Some "p.jpg";
                                return_image := Some "r.jpg";
                                annotated_return_image := Some "" |} ]})
  !! "front"
  = Some {| pickupUrl := Some "p.jpg"; resultUrl := Some "" |}
  ∧ Some "" ≠ Some "r.jpg".
Proof. split; [vm_compute; reflexivity|discriminate]. Qed.

(** C9 (as amended).  A side is left out of the output exactly when the
    input has no entry for it, or the entry is [undefined]/[null], or its
    key is [__proto__]; an entry under any other key that lacks its pickup
    or its return reference is still shown, with the missing reference left
    missing, and no input makes the function fail. *)
Theorem C9_omitted_iff_no_entry (raw : AssessmentResultMap) (side : string) :
  (normalizeResults (Some raw) !! side = None
   ↔ side = "__proto__" ∨ raw !! side = None ∨ raw !! side = Some None)
  ∧ (∀ sideData, side ≠ "__proto__" → raw !! side = Some (Some sideData) →
       normalizeResults (Some raw) !! side
       = Some {| pickupUrl := pickup_image sideData;
                 resultUrl := annotated_return_image sideData
                              ?? return_image sideData |}).
Proof.
  rewrite normalizeResults_lookup. case_bool_decide as Hp; split.
  - split; [by left|done].
  - by intros d Hne.
  - destruct (raw !! side) as [[d|]|]; split; intros H; try done.
    + by destruct H as [?|[?|?]].
    + by right; right.
    + by right; left.
  - by intros d _ ->.
Qed.

(** C9, as the specification words it, fails: an entry without a pickup image is
    not left out, it is shown with no pickup image. *)
Lemma C9_missing_pickup_is_shown :
  normalizeResults
    (Some {[ "front" := Some {| pickup_image := None;
                                return_image := Some "r.jpg";
                                annotated_return_image := None |} ]})
  !! "front"
  = Some {| pickupUrl := None; resultUrl := Some "r.jpg" |}
  ∧ normalizeResults
      (Some {[ "rear" := Some {| pickup_image := Some "p.jpg";
                                 return_image := None;
                                 annotated_return_image := None |} ]})
    !! "rear"
    = Some {| pickupUrl := Some "p.jpg"; resultUrl := None |}.
Proof. split; vm_compute; reflexivity. Qed.

(** ** The reducer: a successful fetch *)

Lemma resolved_fields c data w :
  let s := session w in
  let s' := session (fetchAssessmentStatus_resolved c data w) in
  status s' = (if commits c data w then Some (resp_status data) else status s)
  ∧ lastStatusRef s'
    = (if commits c data w then Some (resp_status data) else lastStatusRef s)
  ∧ results s'
    = (if commits c data w && bool_decide (is_Some (resp_results data))
       then normalizeResults (resp_results data) else results s)
  ∧ summary s'
    = (if commits c data w && Js.truthy (resp_summary data)
       then resp_summary data else summary s)
  ∧ error s' = (if commits c data w then None else error s)
  ∧ isMountedRef s' = isMountedRef s.
Proof.
  cbv zeta. unfold commits.
  destruct (isMountedRef (session w)) eqn:Hm.
  - rewrite resolved_mounted by done. cbv zeta. proj_simpl. done.
  - rewrite resolved_unmounted by done. proj_simpl. by rewrite Hm.
Qed.

Lemma resolve_all_same_status c datas : ∀ w,
  cl_isInitialLoading c = false →
  Forall (λ data, Some (resp_status data) = lastStatusRef (session w)) datas →
  results (session (resolve_all c datas w)) = results (session w)
  ∧ summary (session (resolve_all c datas w)) = summary (session w)
  ∧ error (session (resolve_all c datas w)) = error (session w)
  ∧ status (session (resolve_all c datas w)) = status (session w).
Proof.
  induction datas as [|data datas IH]; intros w Hc Hall; [done|].
  apply Forall_cons in Hall as [Hd Hall].
  assert (Hno : commits c data w = false).
  { unfold commits. rewrite Hc, orb_false_r.
    apply andb_false_iff. right. by apply bool_decide_eq_false; intros []. }
  destruct (resolved_fields c data w) as (Hst & Hls & Hrs & Hsm & Her & _).
  rewrite Hno in *. cbn [andb] in *.
  unfold resolve_all in *. cbn [foldl].
  destruct (IH (fetchAssessmentStatus_resolved c data w) Hc) as (-> & -> & -> & ->).
  - by rewrite Hls.
  - by rewrite Hrs, Hsm, Her, Hst.
Qed.

(** C1 (as amended).  A successful response changes [results] and [summary]
    only when it reaches a mounted page and either its status differs from
    the last committed one or the closure that sent the request was made
    during the first load.  Then results that are not null are normalised
    and replace the shown results, and a non-empty summary is stored;
    otherwise both stay as they are.  Over any run of successful responses
    that repeat the committed status, after the first load, results and
    summary stay exactly as they were. *)
Theorem C1_results_summary_behind_status_gate (c : Closure) (w : World) :
  (∀ data,
     let s' := session (fetchAssessmentStatus_resolved c data w) in
     results s' = (if commits c data w && bool_decide (is_Some (resp_results data))
                   then normalizeResults (resp_results data)
                   else results (session w))
     ∧ summary s' = (if commits c data w && Js.truthy (resp_summary data)
                     then resp_summary data
                     else summary (session w)))
  ∧ (∀ datas,
       cl_isInitialLoading c = false →
       Forall (λ data, Some (resp_status data) = lastStatusRef (session w)) datas →
       results (session (resolve_all c datas w)) = results (session w)
       ∧ summary (session (resolve_all c datas w)) = summary (session w)).
Proof.
  split.
  - intros data. cbv zeta.
    by destruct (resolved_fields c data w) as (_ & _ & -> & -> & _).
  - intros datas Hc Hall.
    by destruct (resolve_all_same_status c datas w Hc Hall) as (-> & -> & _).
Qed.

(** C1, as the specification words it, fails: a response that repeats the status
    [pending] and carries results and a summary leaves both empty. *)
Lemma C1_unchanged_status_drops_payload :
  let evs := (polling_pending
              ++ [Settle 0 (ok pending (Some sample_results)
                              (Some "Scratch on the front bumper."))])%list in
  (results ∘ session <$> run evs (mount (Some "job"))) = Some ∅
  ∧ (summary ∘ session <$> run evs (mount (Some "job"))) = Some None
  ∧ normalizeResults (Some sample_results) !! "front"
    = Some {| pickupUrl := Some "p.jpg"; resultUrl := Some "a.jpg" |}.
Proof. repeat split; vm_compute; reflexivity. Qed.

Lemma C1_results_summary_behind_status_gate_witness :
  let w := world_after polling_pending in
  let datas := [pending_with_payload; pending_with_payload] in
  results (session (resolve_all late_closure datas w)) = results (session w)
  ∧ summary (session (resolve_all late_closure datas w)) = summary (session w).
Proof.
  apply (proj2 (C1_results_summary_behind_status_gate
                  late_closure (world_after polling_pending))).
  - reflexivity.
  - repeat constructor; vm_compute; reflexivity.
Defined.

(** C4 fails on the code.  After a failed request left its message in
    [error], a successful response that repeats the committed status does
    not clear it: the page keeps showing ["Network Error"]. *)
Theorem C4_error_survives_same_status :
  let failed_once := (polling_pending
                      ++ [Settle 0 (FetchError network_error); Tick 2])%list in
  (error ∘ session <$> run failed_once (mount (Some "job")))
  = Some (Some (Js.str "Network Error"))
  ∧ (error ∘ session
       <$> run (failed_once ++ [Settle 0 (ok pending None None)])%list
             (mount (Some "job")))
    = Some (Some (Js.str "Network Error")).
Proof. split; vm_compute; reflexivity. Qed.

(** ** The reducer: a failed fetch *)





(** C10.  When a 404 reaches a mounted page, the cells [results], [summary]
    and [error] keep their values, and so does everything outside the page's
    status, polling flag, timer and loading flag. *)
Theorem C10_not_found_keeps_payload (c : Closure) (e : Thrown) (w : World) :
  isMountedRef (session w) = true →
  isAxiosError e = true → is404 e = true →
  let w' := fetchAssessmentStatus_rejected c e w in
  (status (session w') = Some not_found
   ∧ lastStatusRef (session w') = Some not_found
   ∧ isPolling (session w') = false
   ∧ pollTimerRef (session w') = None
   ∧ isInitialLoading (session w')
     = (if cl_isInitialLoading c then false else isInitialLoading (session w)))
  ∧ (results (session w') = results (session w)
     ∧ summary (session w') = summary (session w)
     ∧ error (session w') = error (session w)
     ∧ isMountedRef (session w') = isMountedRef (session w))
  ∧ (inflight w' = inflight w
     ∧ nextTimerId w' = nextTimerId w
     ∧ uploadId w' = uploadId w
     ∧ attached w' = attached w
     ∧ effectDeps w' = effectDeps w).
Proof.
  intros Hm Hax H404. cbv zeta. rewrite rejected_404 by done.
  cbv zeta. proj_simpl. by rewrite Hm.
Qed.

Lemma C10_not_found_keeps_payload_witness :
  let w := world_after results_then_error in
  let w' := fetchAssessmentStatus_rejected late_closure error_404 w in
  status (session w') = Some not_found
  ∧ results (session w') !! "front"
    = Some {| pickupUrl := Some "p.jpg"; resultUrl := Some "a.jpg" |}
  ∧ summary (session w') = Some "Scratch on the front bumper."
  ∧ error (session w') = Some (Js.str "Network Error").
Proof.
  cbv zeta.
  destruct (C10_not_found_keeps_payload late_closure error_404
              (world_after results_then_error) eq_refl eq_refl eq_refl)
    as ((Hst & _) & (Hrs & Hsm & Her & _) & _).
  rewrite Hst, Hrs, Hsm, Her.
  repeat split; vm_compute; reflexivity.
Defined.

Lemma Reachable_world_after evs :
  is_Some (run evs (mount (Some "job"))) → Reachable (world_after evs).
Proof.
  intros [w Hw]. exists (Some "job"), evs.
  unfold world_after. by rewrite Hw.
Qed.

Lemma take_inflight_frame i w :
  session (take_inflight i w) = session w
  ∧ intervals (take_inflight i w) = intervals w
  ∧ attached (take_inflight i w) = attached w
  ∧ inflight (take_inflight i w) = delete i (inflight w).
Proof. by destruct w. Qed.

(** The 404 branch, at the moment it has run: at any point of a session
    (any reachable world with the page in the tree), whatever the status
    was, the status is [not_found], the flag is cleared, [pollTimerRef] is
    empty and no interval is armed. *)
Lemma not_found_branch_disarms
    (w w' : World) (i : nat) (e : Thrown) :
  Reachable w → attached w = true →
  isAxiosError e = true → is404 e = true →
  exec (Settle i (FetchError e)) w = Some w' →
  status (session w') = Some not_found
  ∧ shouldContinuePolling (status (session w')) = false
  ∧ isPolling (session w') = false
  ∧ pollTimerRef (session w') = None
  ∧ intervals w' = [].
Proof.
  intros Hr Hatt Hax H404 Hex.
  destruct (Reachable_Inv w Hr) as [Ht Hs Hm].
  unfold exec in Hex.
  destruct (inflight w !! i) as [c|]; simpl in Hex; [|done].
  injection Hex as <-. unfold seq, fetchAssessmentStatus_settled.
  destruct (take_inflight_frame i w) as (Es & Ei & _ & _).
  assert (Ht' : timers_owned (take_inflight i w)).
  { intros iv. rewrite Es, Ei. apply Ht. }
  rewrite rejected_404 by (rewrite ?Es; congruence).
  cbv zeta. proj_simpl. rewrite (disarmed_owned _ Ht'). done.
Qed.

(** C6 fails on the code.  When the first request of a session ends with a
    404, the 404 branch sets [not_found] and disarms the timer, but it also
    ends the loading state; the render that follows runs the effect again,
    and [startPolling] arms interval 2 and sets the polling flag: polling is
    not halted, and at the next firing one more request is sent. *)
Theorem C6_first_404_polls_again :
  let first_404 := [Tick 1; Settle 0 (FetchError error_404)] in
  ((λ w, (status (session w), isPolling (session w),
          pollTimerRef (session w), intervals w))
     <$> run first_404 (mount (Some "job")))
  = Some (Some not_found, false, None, [])
  ∧ ((λ w, (status (session w), isPolling (session w),
            pollTimerRef (session w), intervals w))
       <$> run (first_404 ++ [Render])%list (mount (Some "job")))
    = Some (Some not_found, true, Some 2,
            [mkInterval 2 5000
               {| cl_uploadId := Some "job"; cl_isInitialLoading := false |}])
  ∧ ((λ w, length (inflight w))
       <$> run (first_404 ++ [Render; Tick 2])%list (mount (Some "job")))
    = Some 1.
Proof. repeat split; vm_compute; reflexivity. Qed.

(** ** Terminal statuses *)

Lemma disarmed_subset w iv : iv ∈ disarmed w → iv ∈ intervals w.
Proof.
  unfold disarmed. destruct (pollTimerRef (session w)); [|done].
  intros Hin. by apply list_elem_of_filter in Hin as [_ Hin].
Qed.

(** C3 (as amended).  Once the committed status is terminal, no outcome
    that is delivered arms an interval, fills [pollTimerRef] or sets the
    polling flag; and an outcome that brings no status (a failure other
    than a 404) or brings the committed status again leaves the status as
    it is. *)
Theorem C3_terminal_kept_unless_contradicted
    (w : World) (c : Closure) (o : Outcome) (st : AssessmentStatus) :
  status (session w) = Some st →
  shouldContinuePolling (Some st) = false →
  let w' := fetchAssessmentStatus_settled c o w in
  (∀ iv, iv ∈ intervals w' → iv ∈ intervals w)
  ∧ (pollTimerRef (session w') = pollTimerRef (session w)
     ∨ pollTimerRef (session w') = None)
  ∧ (isPolling (session w') = true → isPolling (session w) = true)
  ∧ (reported o = None ∨ reported o = Some st →
     status (session w') = Some st).
Proof.
  intros Hst Hterm. cbv zeta. unfold fetchAssessmentStatus_settled.
  destruct (isMountedRef (session w)) eqn:Hm.
  - destruct o as [data|e]; cbn [reported].
    + rewrite resolved_mounted by done. cbv zeta. proj_simpl.
      destruct (negb (shouldContinuePolling (Some (resp_status data)))).
      * repeat split; [apply disarmed_subset|by right|done|].
        intros [?|[= ->]]; [done|]. by case_match.
      * repeat split; [done|by left|done|].
        intros [?|[= ->]]; [done|]. by case_match.
    + destruct (isAxiosError e && is404 e) eqn:Hk.
      * apply andb_true_iff in Hk as [Hax H404].
        rewrite rejected_404 by done. cbv zeta. proj_simpl.
        repeat split; [apply disarmed_subset|by right|done|].
        by intros [?|[= ->]].
      * rewrite rejected_other by done. cbv zeta. proj_simpl.
        repeat split; [done|by left|done|done].
  - destruct o as [data|e];
      [rewrite resolved_unmounted by done|rewrite rejected_unmounted by done];
      repeat split; try done; by left.
Qed.

Lemma C3_terminal_kept_unless_contradicted_witness :
  let w := world_after completed_early in
  let w' := fetchAssessmentStatus_settled late_closure
              (ok complete None None) w in
  status (session w) = Some complete
  ∧ status (session w') = Some complete
  ∧ (isPolling (session w') = true → isPolling (session w) = true).
Proof.
  cbv zeta.
  destruct (C3_terminal_kept_unless_contradicted
              (world_after completed_early) late_closure
              (ok complete None None) complete eq_refl eq_refl)
    as (_ & _ & Hpoll & Hkeep).
  split; [reflexivity|].
  split; [apply Hkeep; by right|exact Hpoll].
Defined.

(** C3, as the specification words it, fails: the page has committed [complete];
    the request sent before that commit then answers [pending], and the
    status goes back to [pending] with no interval left to poll again. *)
Lemma C3_stale_response_leaves_terminal :
  (status ∘ session <$> run completed_early (mount (Some "job")))
  = Some (Some complete)
  ∧ (status ∘ session
       <$> run (completed_early ++ [Settle 0 (ok pending None None)])%list
             (mount (Some "job")))
    = Some (Some pending)
  ∧ (intervals
       <$> run (completed_early ++ [Settle 0 (ok pending None None)])%list
             (mount (Some "job")))
    = Some [].
Proof. repeat split; vm_compute; reflexivity. Qed.

(** ** Starting and leaving *)

(** C2 fails on the code.  [startPolling], called while no timer is armed,
    sets the polling flag and arms one interval of 5000 ms, and sends no
    request: the list of pending requests is as it was, so the first request
    leaves only when the interval first fires. *)
Theorem C2_start_arms_timer_without_fetch (c : Closure) (w : World) :
  pollTimerRef (session w) = None →
  let w' := startPolling c w in
  inflight w' = inflight w
  ∧ intervals w'
    = (intervals w
       ++ [{| iv_id := nextTimerId w; iv_delay := 5000; iv_callback := c |}])%list
  ∧ isPolling (session w') = true
  ∧ pollTimerRef (session w') = Some (nextTimerId w).
Proof.
  intros Hn. cbv zeta. rewrite startPolling_unarmed by done.
  cbv zeta. proj_simpl. done.
Qed.

Lemma C2_start_arms_timer_without_fetch_witness :
  let c := {| cl_uploadId := Some "job"; cl_isInitialLoading := true |} in
  let w' := startPolling c (first_render (Some "job")) in
  inflight w' = []
  ∧ intervals w' = [{| iv_id := 1; iv_delay := 5000; iv_callback := c |}]
  ∧ isPolling (session w') = true
  ∧ pollTimerRef (session w') = Some 1.
Proof.
  cbv zeta.
  exact (C2_start_arms_timer_without_fetch
           {| cl_uploadId := Some "job"; cl_isInitialLoading := true |}
           (first_render (Some "job")) eq_refl).
Defined.

Lemma detached_settled c o w :
  isMountedRef (session w) = false → fetchAssessmentStatus_settled c o w = w.
Proof.
  intros Hm. destruct o; [by apply resolved_unmounted|by apply rejected_unmounted].
Qed.

Lemma detached_exec ev w w' :
  detached w → exec ev w = Some w' →
  detached w' ∧ session w' = session w
  ∧ (length (inflight w') ≤ length (inflight w))%nat.
Proof.
  intros (Hatt & Hm & Hiv) Hex. destruct ev as [id|i o| | |]; unfold exec in Hex.
  - rewrite Hiv in Hex. simpl in Hex. done.
  - destruct (inflight w !! i) as [c|] eqn:Hc; simpl in Hex; [|done].
    injection Hex as <-. unfold seq.
    destruct (take_inflight_frame i w) as (Es & Ei & Ea & Ef).
    rewrite detached_settled by (by rewrite Es).
    unfold detached. rewrite Es, Ei, Ea, Ef, length_delete by eauto.
    repeat split; try done. lia.
  - by rewrite Hatt in Hex.
  - by rewrite Hatt in Hex.
  - by rewrite Hatt in Hex.
Qed.

Lemma detached_run evs : ∀ w w',
  detached w → run evs w = Some w' →
  detached w' ∧ session w' = session w
  ∧ (length (inflight w') ≤ length (inflight w))%nat.
Proof.
  induction evs as [|ev evs IH]; intros w w' Hd Hrun; cbn [run] in Hrun.
  - injection Hrun as <-. split; [done|]. split; [done|lia].
  - destruct (exec ev w) as [w1|] eqn:E; simpl in Hrun; [|done].
    destruct (detached_exec ev w w1 Hd E) as (Hd1 & Es1 & Hl1).
    destruct (IH w1 w' Hd1 Hrun) as (Hd' & Es' & Hl').
    split; [done|]. split; [congruence|lia].
Qed.

(** C8.  When the page leaves the tree, the clean-up disarms the timer: no
    interval is left and [pollTimerRef] is empty.  From then on a request
    that ends, with a response or with an error, changes nothing at all, and
    whatever happens next the cells of the page keep their values, no
    interval is armed and no request is sent. *)
Theorem C8_nothing_changes_after_unmount (w w1 : World) :
  Reachable w →
  exec Unmount w = Some w1 →
  (isMountedRef (session w1) = false
   ∧ isPolling (session w1) = false
   ∧ pollTimerRef (session w1) = None
   ∧ intervals w1 = [])
  ∧ (∀ c o, fetchAssessmentStatus_settled c o w1 = w1)
  ∧ (∀ evs w2, run evs w1 = Some w2 →
       session w2 = session w1
       ∧ intervals w2 = []
       ∧ (length (inflight w2) ≤ length (inflight w1))%nat).
Proof.
  intros Hr Hex. destruct (Reachable_Inv w Hr) as [Ht Hs Hm].
  unfold exec in Hex. destruct (attached w); [|done].
  injection Hex as <-. unfold seq.
  rewrite effect_cleanup_unfold. cbv zeta. rewrite (disarmed_owned w Ht).
  unfold set_attached. proj_simpl.
  split; [done|]. split.
  - intros c o. by apply detached_settled.
  - intros evs w2 Hrun.
    apply detached_run in Hrun as ((_ & _ & Hiv) & Es & Hl); [done|].
    by repeat split.
Qed.

Lemma C8_nothing_changes_after_unmount_witness :
  let w1 := (effect_cleanup >>> set_attached false)
              (world_after results_then_error) in
  length (inflight w1) = 1
  ∧ intervals w1 = []
  ∧ fetchAssessmentStatus_settled late_closure
      (ok complete (Some sample_results) (Some "No new damage.")) w1 = w1
  ∧ fetchAssessmentStatus_settled late_closure (FetchError error_404) w1 = w1.
Proof.
  cbv zeta.
  destruct (C8_nothing_changes_after_unmount
              (world_after results_then_error)
              ((effect_cleanup >>> set_attached false)
                 (world_after results_then_error)))
    as ((_ & _ & _ & Hiv) & Hsame & _).
  - apply Reachable_world_after. vm_compute. eauto.
  - vm_compute. reflexivity.
  - split; [vm_compute; reflexivity|].
    split; [exact Hiv|].
    split; apply Hsame.
Defined.

(** * Further properties of the status page *)

(** ** What the page renders *)

(** The branches of [renderStatusContent].  The [default] branch of its
    [switch] answers a status outside the five of [AssessmentStatus] and has
    no counterpart here. *)
Inductive StatusContent : Type :=
  | LoadingSpinner                     (** "Loading assessment status…" *)
  | UnableToLoad                       (** [!status] *)
  | PendingNotice
  | InProgressNotice
  | CompleteView (no_results : bool) (text : option string)
  | FailedNotice
  | NotFoundNotice.

(** [Object.keys(results).length === 0] *)
Definition no_results_available (shown : ResultsState) : bool :=
  bool_decide (size shown = 0).

Definition renderStatusContent (s : Session) : StatusContent :=
  if isInitialLoading s then LoadingSpinner
  else match status s with
       | None => UnableToLoad
       | Some pending => PendingNotice
       | Some in_progress => InProgressNotice
       | Some complete =>
           CompleteView (no_results_available (results s)) (summary s)
       | Some failed => FailedNotice
       | Some not_found => NotFoundNotice
       end.

(** [{error && <Alert ...>}]: the test that guards the banner.  What React
    makes of a truthy [error] that is not a string is not modelled. *)
Definition showsErrorBanner (s : Session) : bool :=
  Js.truthy_any (error s).

(** [isPolling && !isInitialLoading && status &&
    ['pending', 'in_progress'].includes(status)] *)
Definition showsPollingIndicator (s : Session) : bool :=
  isPolling s && negb (isInitialLoading s)
  && match status s with
     | Some st => bool_decide (st ∈ [pending; in_progress])
     | None => false
     end.

(** ** More invariants *)

(** The polling flag, the timer handle and the interval table say the same
    thing, and the one interval has the polling delay and an id already
    given out. *)
Definition armed_ok (w : World) : Prop :=
  match pollTimerRef (session w) with
  | Some id =>
      isPolling (session w) = true
      ∧ (id < nextTimerId w)%nat
      ∧ ∃ c, intervals w = [mkInterval id POLL_INTERVAL_MS c]
  | None => isPolling (session w) = false ∧ intervals w = []
  end.

(** Every closure still alive: the one the effect last ran with, those of
    the pending requests and those of the intervals. *)
Definition closures (w : World) : list Closure :=
  effectDeps w :: (inflight w ++ (iv_callback <$> intervals w))%list.

(** A closure was made by a render of this page: it holds the page's upload
    id, and it saw [isInitialLoading = false] only if the cell is false. *)
Definition closure_ok (up : option string) (loading : bool) (c : Closure) : Prop :=
  cl_uploadId c = up ∧ (cl_isInitialLoading c = false → loading = false).

Record Inv2 (w : World) : Prop := mkInv2 {
  inv2_armed : armed_ok w;
  inv2_closures :
    Forall (closure_ok (uploadId w) (isInitialLoading (session w))) (closures w)
}.

Lemma armed_ok_same w w' :
  pollTimerRef (session w') = pollTimerRef (session w) →
  isPolling (session w') = isPolling (session w) →
  intervals w' = intervals w →
  nextTimerId w' = nextTimerId w →
  armed_ok w → armed_ok w'.
Proof. unfold armed_ok. by intros -> -> -> ->. Qed.

Lemma armed_ok_cleared w' :
  pollTimerRef (session w') = None →
  isPolling (session w') = false →
  intervals w' = [] →
  armed_ok w'.
Proof. unfold armed_ok. by intros -> -> ->. Qed.

Lemma armed_ok_owned w : armed_ok w → timers_owned w.
Proof.
  unfold armed_ok, timers_owned.
  destruct (pollTimerRef (session w)) as [id|].
  - intros (_ & _ & c & ->) iv Hin.
    by apply list_elem_of_singleton in Hin as ->.
  - intros (_ & ->) iv Hin. by apply elem_of_nil in Hin.
Qed.

Lemma armed_ok_disarmed w : armed_ok w → disarmed w = [].
Proof. intros H. by apply disarmed_owned, armed_ok_owned. Qed.

Lemma armed_ok_settled c o w :
  armed_ok w → armed_ok (fetchAssessmentStatus_settled c o w).
Proof.
  intros Ha. unfold fetchAssessmentStatus_settled.
  destruct (isMountedRef (session w)) eqn:Hm.
  - destruct o as [data|e].
    + rewrite resolved_mounted by done. cbv zeta.
      destruct (negb (shouldContinuePolling _)).
      * apply armed_ok_cleared; proj_simpl; [done..|by apply armed_ok_disarmed].
      * by eapply armed_ok_same; [..|exact Ha].
    + destruct (isAxiosError e && is404 e) eqn:Hk.
      * apply andb_true_iff in Hk as [Hax H404].
        rewrite rejected_404 by done. cbv zeta.
        apply armed_ok_cleared; proj_simpl; [done..|by apply armed_ok_disarmed].
      * rewrite rejected_other by done. cbv zeta.
        by eapply armed_ok_same; [..|exact Ha].
  - by destruct o;
      [rewrite resolved_unmounted by done|rewrite rejected_unmounted by done].
Qed.

(** What a settled request leaves alone. *)
Lemma settled_frame c o w :
  let w' := fetchAssessmentStatus_settled c o w in
  uploadId w' = uploadId w
  ∧ effectDeps w' = effectDeps w
  ∧ inflight w' = inflight w
  ∧ nextTimerId w' = nextTimerId w
  ∧ attached w' = attached w
  ∧ isMountedRef (session w') = isMountedRef (session w)
  ∧ (intervals w' = intervals w ∨ intervals w' = disarmed w)
  ∧ isInitialLoading (session w')
    = (if isMountedRef (session w) && cl_isInitialLoading c then false
       else isInitialLoading (session w)).
Proof.
  cbv zeta. unfold fetchAssessmentStatus_settled.
  destruct (isMountedRef (session w)) eqn:Hm.
  - destruct o as [data|e].
    + rewrite resolved_mounted by done. cbv zeta. proj_simpl.
      repeat split; try done. destruct (negb _); [by right|by left].
    + destruct (isAxiosError e && is404 e) eqn:Hk.
      * apply andb_true_iff in Hk as [Hax H404].
        rewrite rejected_404 by done. cbv zeta. proj_simpl.
        repeat split; try done. by right.
      * rewrite rejected_other by done. cbv zeta. proj_simpl.
        repeat split; try done. by left.
  - destruct o;
      [rewrite resolved_unmounted by done|rewrite rejected_unmounted by done];
      proj_simpl; repeat split; try done; by left.
Qed.

Lemma closures_ok_weaken w w' :
  uploadId w' = uploadId w →
  (∀ c, c ∈ closures w' → c ∈ closures w) →
  (isInitialLoading (session w) = false →
   isInitialLoading (session w') = false) →
  Forall (closure_ok (uploadId w) (isInitialLoading (session w))) (closures w) →
  Forall (closure_ok (uploadId w') (isInitialLoading (session w'))) (closures w').
Proof.
  intros -> Hsub Hmono Hall. apply Forall_forall. intros c Hin.
  apply Hsub in Hin. rewrite Forall_forall in Hall.
  destruct (Hall c Hin) as [Hup Hld]. split; [done|]. auto.
Qed.

Lemma closures_settled c o w x :
  x ∈ closures (fetchAssessmentStatus_settled c o w) → x ∈ closures w.
Proof.
  destruct (settled_frame c o w) as (_ & Ed & Ef & _ & _ & _ & Ei & _).
  unfold closures. rewrite Ed, Ef.
  rewrite !elem_of_cons, !elem_of_app, !list_elem_of_fmap.
  intros [?|[?|(iv & -> & Hin)]]; [by left|by right; left|].
  right; right. exists iv. split; [done|].
  destruct Ei as [Ei|Ei]; rewrite Ei in Hin; [done|by apply disarmed_subset].
Qed.

Lemma Inv2_settled c o w : Inv2 w → Inv2 (fetchAssessmentStatus_settled c o w).
Proof.
  intros [Ha Hc]. split; [by apply armed_ok_settled|].
  destruct (settled_frame c o w) as (Eu & _ & _ & _ & _ & _ & _ & El).
  revert Hc. apply closures_ok_weaken; [done|apply closures_settled|].
  intros Hl. rewrite El, Hl. by case_match.
Qed.

(** The effect body when no timer is armed. *)
Lemma effect_body_unarmed c w :
  pollTimerRef (session w) = None →
  let s := session w in
  effect_body c w
  = {| session :=
         {| status := status s; results := results s; summary := summary s;
            isPolling := true; error := error s;
            isInitialLoading := isInitialLoading s;
            lastStatusRef := lastStatusRef s;
            pollTimerRef := Some (nextTimerId w);
            isMountedRef := true |};
       intervals := intervals w ++ [mkInterval (nextTimerId w) POLL_INTERVAL_MS c];
       nextTimerId := S (nextTimerId w); inflight := inflight w;
       uploadId := uploadId w; attached := attached w;
       effectDeps := effectDeps w |}.
Proof.
  intros Hn. cbv zeta. open_world w. subst pt.
  unfold_page. reflexivity.
Qed.

Lemma Inv2_mount id : Inv2 (mount id).
Proof.
  unfold mount. rewrite effect_body_unarmed by done. cbv zeta.
  split.
  - unfold armed_ok, first_render. proj_simpl. repeat split; [lia|eauto].
  - unfold closures, first_render, rendered_closure. proj_simpl. simpl.
    repeat apply Forall_cons_2; try apply Forall_nil_2; by split.
Qed.

(** The re-run of the effect when its dependencies changed. *)
Lemma rerun_effect_changed w :
  armed_ok w → rendered_closure w ≠ effectDeps w →
  let s := session w in
  rerun_effect w
  = {| session :=
         {| status := status s; results := results s; summary := summary s;
            isPolling := true; error := error s;
            isInitialLoading := isInitialLoading s;
            lastStatusRef := lastStatusRef s;
            pollTimerRef := Some (nextTimerId w);
            isMountedRef := true |};
       intervals := [mkInterval (nextTimerId w) POLL_INTERVAL_MS
                       (rendered_closure w)];
       nextTimerId := S (nextTimerId w); inflight := inflight w;
       uploadId := uploadId w; attached := attached w;
       effectDeps := rendered_closure w |}.
Proof.
  intros Ha Hne. cbv zeta. unfold rerun_effect.
  destruct (decide (rendered_closure w = effectDeps w)); [done|].
  unfold seq. rewrite effect_cleanup_unfold. cbv zeta.
  rewrite (armed_ok_disarmed w Ha).
  rewrite effect_body_unarmed by done. cbv zeta.
  unfold set_effectDeps. proj_simpl. reflexivity.
Qed.

Lemma Inv2_rerun_effect w : Inv2 w → Inv2 (rerun_effect w).
Proof.
  intros [Ha Hc].
  destruct (decide (rendered_closure w = effectDeps w)) as [Heq|Hne].
  - unfold rerun_effect. by rewrite decide_True.
  - rewrite rerun_effect_changed by done. cbv zeta. split.
    + unfold armed_ok. proj_simpl. repeat split; [lia|eauto].
    + unfold closures in *. proj_simpl. simpl.
      apply Forall_cons in Hc as [_ Hc].
      apply Forall_app in Hc as [Hf _].
      apply Forall_cons_2; [by split|].
      apply Forall_app_2; [done|].
      apply Forall_cons_2; [by split|apply Forall_nil_2].
Qed.

Lemma Inv2_unmount w : Inv2 w → Inv2 ((effect_cleanup >>> set_attached false) w).
Proof.
  intros [Ha Hc]. unfold seq. rewrite effect_cleanup_unfold. cbv zeta.
  rewrite (armed_ok_disarmed w Ha). unfold set_attached. split.
  - by apply armed_ok_cleared.
  - unfold closures in *. proj_simpl. simpl. rewrite app_nil_r.
    apply Forall_cons in Hc as [Hd Hc].
    apply Forall_app in Hc as [Hf _].
    by apply Forall_cons_2.
Qed.

Lemma Inv2_request c w :
  c ∈ closures w → Inv2 w → Inv2 (fetchAssessmentStatus_request c w).
Proof.
  intros Hin [Ha Hc]. unfold fetchAssessmentStatus_request, axios_get, skip.
  destruct (Js.truthy (cl_uploadId c)); [|by split].
  destruct w as [s ivs nx inf up att ed]. split; [done|].
  unfold closures in *. proj_simpl.
  apply Forall_cons in Hc as [Hd Hc].
  apply Forall_app in Hc as [Hf Hi].
  apply Forall_cons_2; [done|].
  apply Forall_app_2; [|done].
  apply Forall_app_2; [done|].
  apply Forall_cons_2; [|apply Forall_nil_2].
  assert (Hall : Forall (closure_ok up (isInitialLoading s))
                   (ed :: inf ++ (iv_callback <$> ivs))).
  { apply Forall_cons_2; [done|]. by apply Forall_app_2. }
  rewrite Forall_forall in Hall. by apply Hall.
Qed.

Lemma Inv2_take_inflight i w : Inv2 w → Inv2 (take_inflight i w).
Proof.
  intros [Ha Hc]. destruct w as [s ivs nx inf up att ed]. split; [done|].
  unfold closures, take_inflight in *. proj_simpl.
  apply Forall_cons in Hc as [Hd Hc].
  apply Forall_app in Hc as [Hf Hi].
  apply Forall_cons_2; [done|].
  apply Forall_app_2; [|done].
  by apply Forall_delete.
Qed.

Lemma Inv2_setError v w : Inv2 w → Inv2 (setError v w).
Proof. intros [Ha Hc]. open_world w. by split. Qed.

Lemma Inv2_exec ev w w' : Inv2 w → exec ev w = Some w' → Inv2 w'.
Proof.
  intros HI Hex. destruct ev as [id|i o| | |]; unfold exec in Hex.
  - destruct (list_find _ _) as [[k iv]|] eqn:Hf; simpl in Hex; [|done].
    injection Hex as <-. apply Inv2_request; [|done].
    apply list_find_Some in Hf as (Hk & _ & _).
    unfold closures. rewrite elem_of_cons, elem_of_app, list_elem_of_fmap.
    right; right. exists iv. split; [done|].
    by eapply list_elem_of_lookup_2.
  - destruct (inflight w !! i) as [c|]; simpl in Hex; [|done].
    injection Hex as <-. unfold seq.
    by apply Inv2_settled, Inv2_take_inflight.
  - destruct (attached w); [|done]. injection Hex as <-.
    by apply Inv2_rerun_effect.
  - destruct (attached w); [|done]. injection Hex as <-.
    by apply Inv2_setError.
  - destruct (attached w); [|done]. injection Hex as <-.
    by apply Inv2_unmount.
Qed.

Lemma Inv2_run evs : ∀ w w', Inv2 w → run evs w = Some w' → Inv2 w'.
Proof.
  induction evs as [|ev evs IH]; intros w w' HI Hrun; cbn [run] in Hrun.
  - by injection Hrun as <-.
  - destruct (exec ev w) as [w1|] eqn:E; simpl in Hrun; [|done].
    eapply IH; [|done]. by eapply Inv2_exec.
Qed.

Lemma Reachable_Inv2 w : Reachable w → Inv2 w.
Proof. intros (id & evs & Hrun). eapply Inv2_run; [apply Inv2_mount|done]. Qed.

Lemma exec_Settle_inv i o w w' :
  exec (Settle i o) w = Some w' →
  ∃ c, inflight w !! i = Some c
       ∧ w' = fetchAssessmentStatus_settled c o (take_inflight i w).
Proof.
  unfold exec. destruct (inflight w !! i) as [c|]; simpl; [|done].
  intros [= <-]. by exists c.
Qed.

Lemma stopPolling_unfold w :
  let s := session w in
  stopPolling w
  = {| session :=
         {| status := status s; results := results s; summary := summary s;
            isPolling := false; error := error s;
            isInitialLoading := isInitialLoading s;
            lastStatusRef := lastStatusRef s;
            pollTimerRef := None; isMountedRef := isMountedRef s |};
       intervals := disarmed w;
       nextTimerId := nextTimerId w; inflight := inflight w;
       uploadId := uploadId w; attached := attached w;
       effectDeps := effectDeps w |}.
Proof.
  cbv zeta. unfold disarmed. open_world w.
  unfold_page. cbv beta iota zeta. proj_simpl.
  destruct pt; reflexivity.
Qed.

(** ** The timer *)

(** X1.  In every world the page can reach, at most one interval is armed;
    the polling flag is set exactly when one is, and then it is the interval
    [pollTimerRef] holds, with the polling delay and an id below the next
    one to be given out. *)
Theorem X1_one_timer_iff_polling (w : World) :
  Reachable w →
  (length (intervals w) ≤ 1)%nat
  ∧ (isPolling (session w) = true
     ↔ ∃ id c, pollTimerRef (session w) = Some id
               ∧ intervals w = [mkInterval id 5000 c]
               ∧ (id < nextTimerId w)%nat)
  ∧ (isPolling (session w) = false
     ↔ pollTimerRef (session w) = None ∧ intervals w = []).
Proof.
  intros Hr. destruct (Reachable_Inv2 w Hr) as [Ha _].
  unfold armed_ok in Ha.
  destruct (pollTimerRef (session w)) as [id|].
  - destruct Ha as (Hp & Hlt & c & Hiv). rewrite Hiv, Hp. cbn [length].
    split; [lia|]. split; split; try done.
    + intros _. by exists id, c.
    + by intros [? _].
  - destruct Ha as (Hp & Hiv). rewrite Hiv, Hp. cbn [length].
    split; [lia|]. split; split; try done.
    by intros (? & ? & ? & _).
Qed.

Lemma X1_one_timer_iff_polling_witness :
  let w := world_after results_then_error in
  (length (intervals w) ≤ 1)%nat
  ∧ (isPolling (session w) = true
     ↔ ∃ id c, pollTimerRef (session w) = Some id
               ∧ intervals w = [mkInterval id 5000 c]
               ∧ (id < nextTimerId w)%nat)
  ∧ (isPolling (session w) = false
     ↔ pollTimerRef (session w) = None ∧ intervals w = []).
Proof.
  apply (X1_one_timer_iff_polling (world_after results_then_error)).
  apply Reachable_world_after. vm_compute. eauto.
Defined.

(** X2.  [startPolling] is idempotent: a second call, with whatever closure,
    changes nothing, so two calls in a row arm at most one interval more
    than there was. *)
Theorem X2_start_twice_is_start_once (c1 c2 : Closure) (w : World) :
  startPolling c2 (startPolling c1 w) = startPolling c1 w
  ∧ (length (intervals (startPolling c2 (startPolling c1 w)))
     ≤ S (length (intervals w)))%nat.
Proof.
  destruct (pollTimerRef (session w)) as [id|] eqn:Hp.
  - assert (E : startPolling c1 w = w) by (unfold startPolling; by rewrite Hp).
    rewrite E. unfold startPolling. rewrite Hp. split; [done|lia].
  - rewrite (startPolling_unarmed c1 w Hp). cbv zeta.
    unfold startPolling. proj_simpl.
    split; [done|]. rewrite length_app. cbn [length]. lia.
Qed.

(** X3.  [stopPolling] is idempotent and safe when nothing is armed: it
    leaves the flag cleared and the handle empty, removes from the interval
    table exactly the entries with the id the handle held, and when the
    handle was already empty it touches nothing but the flag. *)
Theorem X3_stop_is_idempotent (w : World) :
  stopPolling (stopPolling w) = stopPolling w
  ∧ isPolling (session (stopPolling w)) = false
  ∧ pollTimerRef (session (stopPolling w)) = None
  ∧ (∀ iv, iv ∈ intervals (stopPolling w)
           ↔ iv ∈ intervals w ∧ Some (iv_id iv) ≠ pollTimerRef (session w))
  ∧ (pollTimerRef (session w) = None → isPolling (session w) = false →
     stopPolling w = w).
Proof.
  rewrite !stopPolling_unfold. cbv zeta. proj_simpl.
  unfold disarmed at 1. proj_simpl.
  split; [done|]. split; [done|]. split; [done|]. split.
  - intros iv. unfold disarmed.
    destruct (pollTimerRef (session w)) as [id|].
    + rewrite list_elem_of_filter. split.
      * intros [Hne Hin]. split; [done|]. by intros [= ?].
      * intros [Hin Hne]. split; [|done]. intros E. apply Hne. by rewrite E.
    + split; [by intros Hin|by intros [Hin _]].
  - intros Hp Hf. unfold disarmed. rewrite Hp.
    open_world w. by subst.
Qed.

(** ** What a response does to an attached page *)

Lemma attached_settle_setup w i o w' :
  Reachable w → attached w = true →
  exec (Settle i o) w = Some w' →
  ∃ c w0, w' = fetchAssessmentStatus_settled c o w0
          ∧ c ∈ closures w
          ∧ session w0 = session w ∧ intervals w0 = intervals w
          ∧ isMountedRef (session w0) = true
          ∧ status (session w0) = lastStatusRef (session w0)
          ∧ armed_ok w0.
Proof.
  intros Hr Hatt Hex.
  destruct (Reachable_Inv w Hr) as [_ Hs Hm].
  destruct (Reachable_Inv2 w Hr) as [Ha _].
  apply exec_Settle_inv in Hex as (c & Hc & ->).
  destruct (take_inflight_frame i w) as (Es & Ei & _ & _).
  exists c, (take_inflight i w). rewrite Es.
  repeat split; try done; try congruence.
  - unfold closures. rewrite elem_of_cons, elem_of_app. right; left.
    by eapply list_elem_of_lookup_2.
  - revert Ha. apply armed_ok_same; try done; [by rewrite Es..|by destruct w].
Qed.

(** X4.  After any successful response delivered to an attached page, the
    status shown and [lastStatusRef] are the status of that response: the
    test that skips repeated statuses never leaves an older status on the
    page. *)
Theorem X4_status_follows_response
    (w w' : World) (i : nat) (data : AssessmentResponse) :
  Reachable w → attached w = true →
  exec (Settle i (FetchOk data)) w = Some w' →
  status (session w') = Some (resp_status data)
  ∧ lastStatusRef (session w') = Some (resp_status data).
Proof.
  intros Hr Hatt Hex.
  destruct (attached_settle_setup w i _ w' Hr Hatt Hex)
    as (c & w0 & -> & _ & _ & _ & Hm & Hs & _).
  cbn [fetchAssessmentStatus_settled].
  destruct (resolved_fields c data w0) as (Hst & Hls & _).
  rewrite Hst, Hls. unfold commits. rewrite Hm. cbn [andb].
  destruct (bool_decide _ || _) eqn:Hc; [done|].
  apply orb_false_iff in Hc as [Hc _].
  apply bool_decide_eq_false in Hc.
  rewrite Hs. destruct (decide (Some (resp_status data) = lastStatusRef (session w0)));
    [by split|done].
Qed.

Lemma X4_status_follows_response_witness :
  let w' := fetchAssessmentStatus_settled late_closure
              (ok in_progress None None)
              (take_inflight 0 (world_after results_then_error)) in
  status (session w') = Some in_progress
  ∧ lastStatusRef (session w') = Some in_progress.
Proof.
  cbv zeta.
  apply (X4_status_follows_response (world_after results_then_error) _ 0
           {| resp_status := in_progress; resp_created_at := None;
              resp_completed_at := None; resp_results := None;
              resp_summary := None; resp_error := None |}).
  - apply Reachable_world_after. vm_compute. eauto.
  - reflexivity.
  - vm_compute. reflexivity.
Defined.

(** The first load is over and the effect has run with the closure of the
    latest render. *)
Definition settled_down (w : World) : Prop :=
  isInitialLoading (session w) = false ∧ effectDeps w = rendered_closure w.

(** Nothing is armed. *)
Definition halted (w : World) : Prop :=
  intervals w = []
  ∧ pollTimerRef (session w) = None
  ∧ isPolling (session w) = false.

(** A settled request leaves the timer as it is or disarms it. *)
Lemma settled_timer c o w :
  let w' := fetchAssessmentStatus_settled c o w in
  (intervals w' = intervals w
   ∧ pollTimerRef (session w') = pollTimerRef (session w)
   ∧ isPolling (session w') = isPolling (session w))
  ∨ (intervals w' = disarmed w
     ∧ pollTimerRef (session w') = None
     ∧ isPolling (session w') = false).
Proof.
  cbv zeta. unfold fetchAssessmentStatus_settled.
  destruct (isMountedRef (session w)) eqn:Hm.
  - destruct o as [data|e].
    + rewrite resolved_mounted by done. cbv zeta. proj_simpl.
      destruct (negb _); [by right|by left].
    + destruct (isAxiosError e && is404 e) eqn:Hk.
      * apply andb_true_iff in Hk as [Hax H404].
        rewrite rejected_404 by done. cbv zeta. proj_simpl. by right.
      * rewrite rejected_other by done. cbv zeta. proj_simpl. by left.
  - destruct o;
      [rewrite resolved_unmounted by done|rewrite rejected_unmounted by done];
      by left.
Qed.

Lemma quiet_exec ev w w' :
  halted w → settled_down w → exec ev w = Some w' →
  halted w' ∧ settled_down w'
  ∧ (length (inflight w') ≤ length (inflight w))%nat.
Proof.
  intros (Hiv & Hp & Hf) (Hl & Hd) Hex.
  destruct ev as [id|i o| | |]; unfold exec in Hex.
  - rewrite Hiv in Hex. simpl in Hex. done.
  - destruct (inflight w !! i) as [c|] eqn:Hc; simpl in Hex; [|done].
    injection Hex as <-. unfold seq.
    set (w0 := take_inflight i w).
    assert (E0 : session w0 = session w ∧ intervals w0 = intervals w
                 ∧ effectDeps w0 = effectDeps w ∧ uploadId w0 = uploadId w
                 ∧ inflight w0 = delete i (inflight w)) by (by destruct w).
    destruct E0 as (Es & Ei & Ee & Eu & Ef).
    destruct (settled_frame c o w0) as (Hu' & He' & Hf' & _ & _ & _ & _ & Hl').
    assert (Hdis : disarmed w0 = []).
    { unfold disarmed. by rewrite Es, Hp, Ei. }
    split; [|split].
    + unfold halted.
      destruct (settled_timer c o w0) as [(-> & -> & ->)|(-> & -> & ->)];
        rewrite ?Es, ?Ei; done.
    + unfold settled_down, rendered_closure.
      rewrite Hl', He', Hu', Es, Hl, Ee, Eu, Hd.
      destruct (isMountedRef (session w) && cl_isInitialLoading c);
        (split; [done|]); unfold rendered_closure; by rewrite Hl.
    + rewrite Hf', Ef, length_delete by eauto. lia.
  - destruct (attached w); [|done]. injection Hex as <-.
    unfold rerun_effect. rewrite decide_True by done.
    repeat split; (done || lia).
  - destruct (attached w); [|done]. injection Hex as <-.
    unfold halted, settled_down, rendered_closure in *.
    open_world w. subst. repeat split; (done || lia).
  - destruct (attached w); [|done]. injection Hex as <-.
    unfold seq. rewrite effect_cleanup_unfold. cbv zeta.
    unfold disarmed. rewrite Hp, Hiv.
    unfold halted, settled_down, rendered_closure, set_attached in *.
    proj_simpl. repeat split; (done || lia).
Qed.

Lemma quiet_run evs : ∀ w w',
  halted w → settled_down w → run evs w = Some w' →
  halted w' ∧ (length (inflight w') ≤ length (inflight w))%nat.
Proof.
  induction evs as [|ev evs IH]; intros w w' Hh Hs Hrun; cbn [run] in Hrun.
  - injection Hrun as <-. split; [done|lia].
  - destruct (exec ev w) as [w1|] eqn:E; simpl in Hrun; [|done].
    destruct (quiet_exec ev w w1 Hh Hs E) as (Hh1 & Hs1 & Hl1).
    destruct (IH w1 w' Hh1 Hs1 Hrun) as (Hh' & Hl').
    split; [done|lia].
Qed.

(** X5.  Once the first load is over and the effect has run with the
    closure of the latest render, a successful response delivered to an
    attached page halts polling exactly when its status is [complete],
    [failed] or [not_found]: then no interval is left, the handle is empty
    and the flag is cleared, and polling stays halted, whatever happens
    next: no interval is armed again and no request is sent.  For [pending]
    and [in_progress] the interval, the handle and the flag are left as they
    were.  (A terminal response that ends the first load is followed by a
    re-run of the effect, which arms a timer again.) *)
Theorem X5_terminal_response_halts_polling
    (w w' : World) (i : nat) (data : AssessmentResponse) :
  Reachable w → attached w = true →
  isInitialLoading (session w) = false →
  effectDeps w = rendered_closure w →
  exec (Settle i (FetchOk data)) w = Some w' →
  let go_on := bool_decide (resp_status data ∈ [pending; in_progress]) in
  intervals w' = (if go_on then intervals w else [])
  ∧ pollTimerRef (session w')
    = (if go_on then pollTimerRef (session w) else None)
  ∧ isPolling (session w') = (if go_on then isPolling (session w) else false)
  ∧ (go_on = false →
     ∀ evs w2, run evs w' = Some w2 →
       intervals w2 = []
       ∧ pollTimerRef (session w2) = None
       ∧ isPolling (session w2) = false
       ∧ (length (inflight w2) ≤ length (inflight w'))%nat).
Proof.
  intros Hr Hatt Hl Hd Hex.
  destruct (attached_settle_setup w i _ w' Hr Hatt Hex)
    as (c & w0 & Hw' & _ & Es & Ei & Hm & _ & Ha).
  cbv zeta.
  assert (Hstep :
    intervals w'
    = (if bool_decide (resp_status data ∈ [pending; in_progress])
       then intervals w else [])
    ∧ pollTimerRef (session w')
      = (if bool_decide (resp_status data ∈ [pending; in_progress])
         then pollTimerRef (session w) else None)
    ∧ isPolling (session w')
      = (if bool_decide (resp_status data ∈ [pending; in_progress])
         then isPolling (session w) else false)).
  { subst w'. cbn [fetchAssessmentStatus_settled].
    rewrite resolved_mounted by done. cbv zeta. proj_simpl.
    rewrite (armed_ok_disarmed w0 Ha), Es, Ei.
    by destruct (resp_status data). }
  destruct Hstep as (Hiv & Hp & Hf).
  split; [done|]. split; [done|]. split; [done|].
  intros Hstop evs w2 Hrun. rewrite Hstop in Hiv, Hp, Hf.
  assert (Hs' : settled_down w').
  { apply exec_Settle_inv in Hex as (c' & _ & ->).
    destruct (settled_frame c' (FetchOk data) (take_inflight i w))
      as (Hu' & He' & _ & _ & _ & _ & _ & Hl').
    unfold settled_down, rendered_closure.
    rewrite Hl', He', Hu'.
    assert (E0 : session (take_inflight i w) = session w
                 ∧ effectDeps (take_inflight i w) = effectDeps w
                 ∧ uploadId (take_inflight i w) = uploadId w) by (by destruct w).
    destruct E0 as (-> & -> & ->). rewrite Hl, Hd.
    destruct (isMountedRef (session w) && cl_isInitialLoading c');
      (split; [done|]); unfold rendered_closure; by rewrite Hl. }
  destruct (quiet_run evs w' w2) as ((? & ? & ?) & ?); done.
Qed.

Lemma X5_terminal_response_halts_polling_witness :
  let w' := fetchAssessmentStatus_settled late_closure
              (ok failed None None)
              (take_inflight 0 (world_after results_then_error)) in
  intervals w' = [] ∧ pollTimerRef (session w') = None
  ∧ isPolling (session w') = false
  ∧ ∀ evs w2, run evs w' = Some w2 →
      intervals w2 = [] ∧ pollTimerRef (session w2) = None
      ∧ isPolling (session w2) = false
      ∧ (length (inflight w2) ≤ length (inflight w'))%nat.
Proof.
  cbv zeta.
  destruct (X5_terminal_response_halts_polling
              (world_after results_then_error)
              (fetchAssessmentStatus_settled late_closure
                 (ok failed None None)
                 (take_inflight 0 (world_after results_then_error)))
              0
              {| resp_status := failed; resp_created_at := None;
                 resp_completed_at := None; resp_results := None;
                 resp_summary := None; resp_error := None |})
    as (Hiv & Hp & Hf & Hlater).
  - apply Reachable_world_after. vm_compute. eauto.
  - reflexivity.
  - reflexivity.
  - reflexivity.
  - vm_compute. reflexivity.
  - split; [exact Hiv|]. split; [exact Hp|]. split; [exact Hf|].
    exact (Hlater eq_refl).
Defined.

(** X6.  Whatever the first request to end brings (a response, a 404, any
    other failure), it ends the loading state of an attached page: after any
    request has ended, the page no longer shows the loading spinner. *)
Theorem X6_any_outcome_ends_loading
    (w w' : World) (i : nat) (o : Outcome) :
  Reachable w → attached w = true →
  exec (Settle i o) w = Some w' →
  isInitialLoading (session w') = false
  ∧ renderStatusContent (session w') ≠ LoadingSpinner.
Proof.
  intros Hr Hatt Hex.
  destruct (Reachable_Inv2 w Hr) as [_ Hc].
  destruct (attached_settle_setup w i _ w' Hr Hatt Hex)
    as (c & w0 & -> & Hin & Es & _ & Hm & _ & _).
  rewrite Forall_forall in Hc. destruct (Hc c Hin) as [_ Hld].
  destruct (settled_frame c o w0) as (_ & _ & _ & _ & _ & _ & _ & El).
  assert (Hfalse : isInitialLoading
                     (session (fetchAssessmentStatus_settled c o w0)) = false).
  { rewrite El, Hm, Es. cbn [andb].
    destruct (cl_isInitialLoading c); [done|by apply Hld]. }
  split; [done|]. unfold renderStatusContent. rewrite Hfalse.
  by repeat case_match.
Qed.

Lemma X6_any_outcome_ends_loading_witness :
  let w' := fetchAssessmentStatus_settled
              {| cl_uploadId := Some "job"; cl_isInitialLoading := true |}
              (FetchError network_error)
              (take_inflight 0 (world_after [Tick 1])) in
  isInitialLoading (session w') = false
  ∧ renderStatusContent (session w') ≠ LoadingSpinner.
Proof.
  cbv zeta.
  apply (X6_any_outcome_ends_loading (world_after [Tick 1]) _ 0
           (FetchError network_error)).
  - apply Reachable_world_after. vm_compute. eauto.
  - reflexivity.
  - vm_compute. reflexivity.
Defined.

Lemma rerun_effect_frame w :
  isInitialLoading (session (rerun_effect w)) = isInitialLoading (session w)
  ∧ inflight (rerun_effect w) = inflight w
  ∧ uploadId (rerun_effect w) = uploadId w
  ∧ status (session (rerun_effect w)) = status (session w)
  ∧ error (session (rerun_effect w)) = error (session w).
Proof.
  unfold rerun_effect. case_decide; [done|].
  unfold seq. rewrite effect_cleanup_unfold. cbv zeta.
  rewrite effect_body_unarmed by done. cbv zeta.
  unfold set_effectDeps. proj_simpl. done.
Qed.

Lemma exec_keeps_loaded ev w w' :
  exec ev w = Some w' →
  isInitialLoading (session w) = false →
  isInitialLoading (session w') = false.
Proof.
  intros Hex Hl. destruct ev as [id|i o| | |]; unfold exec in Hex.
  - destruct (list_find _ _) as [[k iv]|]; simpl in Hex; [|done].
    injection Hex as <-.
    unfold fetchAssessmentStatus_request, axios_get, skip.
    destruct w; by case_match.
  - apply exec_Settle_inv in Hex as (c & _ & ->).
    destruct (settled_frame c o (take_inflight i w))
      as (_ & _ & _ & _ & _ & _ & _ & ->).
    destruct (take_inflight_frame i w) as (-> & _).
    rewrite Hl. by case_match.
  - destruct (attached w); [|done]. injection Hex as <-.
    by destruct (rerun_effect_frame w) as (-> & _).
  - destruct (attached w); [|done]. injection Hex as <-.
    open_world w. by subst.
  - destruct (attached w); [|done]. injection Hex as <-.
    unfold seq. rewrite effect_cleanup_unfold. by destruct w.
Qed.

(** X7.  Once the loading state has ended it never comes back: whatever
    happens next, the page does not show the loading spinner again. *)
Theorem X7_loading_never_returns (evs : list Event) (w w' : World) :
  isInitialLoading (session w) = false →
  run evs w = Some w' →
  isInitialLoading (session w') = false
  ∧ renderStatusContent (session w') ≠ LoadingSpinner.
Proof.
  intros Hl Hrun.
  assert (Hl' : isInitialLoading (session w') = false).
  { revert w Hl Hrun. induction evs as [|ev evs IH]; intros w Hl Hrun;
      cbn [run] in Hrun.
    - by injection Hrun as <-.
    - destruct (exec ev w) as [w1|] eqn:E; simpl in Hrun; [|done].
      eapply IH; [|done]. by eapply exec_keeps_loaded. }
  split; [done|]. unfold renderStatusContent. rewrite Hl'.
  by repeat case_match.
Qed.

Lemma X7_loading_never_returns_witness :
  let w' := world_after (results_then_error ++ [Unmount])%list in
  isInitialLoading (session w') = false
  ∧ renderStatusContent (session w') ≠ LoadingSpinner.
Proof.
  cbv zeta.
  apply (X7_loading_never_returns
           [Settle 0 (FetchError network_error); Tick 2; Unmount]
           (world_after
              (polling_pending
               ++ [Settle 0 (ok in_progress (Some sample_results)
                               (Some "Scratch on the front bumper."));
                   Tick 2])%list)).
  - reflexivity.
  - vm_compute. reflexivity.
Defined.

(** X10.  In every world the page can reach, the note "Refreshing
    automatically every 5 seconds…" is shown exactly when an interval is
    armed, the loading state has ended and the status is [pending] or
    [in_progress]; and the armed interval then has the delay of 5000 ms. *)
Theorem X10_polling_note_tells_the_truth (w : World) :
  Reachable w →
  (showsPollingIndicator (session w) = true
   ↔ intervals w ≠ []
     ∧ isInitialLoading (session w) = false
     ∧ (status (session w) = Some pending
        ∨ status (session w) = Some in_progress))
  ∧ (showsPollingIndicator (session w) = true →
     ∃ id c, intervals w = [mkInterval id 5000 c]).
Proof.
  intros Hr. destruct (Reachable_Inv2 w Hr) as [Ha _].
  unfold armed_ok in Ha. unfold showsPollingIndicator.
  destruct (pollTimerRef (session w)) as [id|].
  - destruct Ha as (-> & _ & c & ->). cbn [andb]. split.
    + destruct (isInitialLoading (session w)); cbn [negb andb].
      * split; [done|]. by intros (_ & ? & _).
      * destruct (status (session w)) as [[]|]; split; try done;
          try (intros _; split; [done|split; [done|eauto]]);
          by intros (_ & _ & [?|?]).
    + intros _. by exists id, c.
  - destruct Ha as (-> & ->). cbn [andb]. split; [|done].
    split; [done|]. by intros [? _].
Qed.

Lemma X10_polling_note_tells_the_truth_witness :
  let w := world_after results_then_error in
  (showsPollingIndicator (session w) = true
   ↔ intervals w ≠ []
     ∧ isInitialLoading (session w) = false
     ∧ (status (session w) = Some pending
        ∨ status (session w) = Some in_progress))
  ∧ (showsPollingIndicator (session w) = true →
     ∃ id c, intervals w = [mkInterval id 5000 c]).
Proof.
  apply (X10_polling_note_tells_the_truth (world_after results_then_error)).
  apply Reachable_world_after. vm_compute. eauto.
Defined.

(** ** A page without an upload id *)

(** Nothing has been sent and nothing has been learnt. *)
Definition idle (w : World) : Prop :=
  Js.truthy (uploadId w) = false
  ∧ inflight w = []
  ∧ effectDeps w = rendered_closure w
  ∧ isInitialLoading (session w) = true
  ∧ status (session w) = None
  ∧ results (session w) = ∅
  ∧ summary (session w) = None
  ∧ error (session w) = None.

Lemma idle_exec ev w w' : Inv2 w → idle w → exec ev w = Some w' → idle w'.
Proof.
  intros [_ Hc] (Hup & Hf & Hd & Hl & Hst & Hrs & Hsm & Her) Hex.
  destruct ev as [id|i o| | |]; unfold exec in Hex.
  - destruct (list_find _ _) as [[k iv]|] eqn:Hfind; simpl in Hex; [|done].
    injection Hex as <-.
    apply list_find_Some in Hfind as (Hk & _ & _).
    rewrite Forall_forall in Hc.
    destruct (Hc (iv_callback iv)) as [Hu _].
    { unfold closures. rewrite elem_of_cons, elem_of_app, list_elem_of_fmap.
      right; right. exists iv. split; [done|]. by eapply list_elem_of_lookup_2. }
    unfold fetchAssessmentStatus_request. rewrite Hu, Hup.
    by unfold skip, idle.
  - by rewrite Hf in Hex.
  - destruct (attached w); [|done]. injection Hex as <-.
    unfold rerun_effect. rewrite decide_True by done. by unfold idle.
  - destruct (attached w); [|done]. injection Hex as <-.
    unfold idle, rendered_closure in *. open_world w. by subst.
  - destruct (attached w); [|done]. injection Hex as <-.
    unfold seq. rewrite effect_cleanup_unfold.
    unfold idle, rendered_closure in *. by destruct w.
Qed.

Lemma idle_run evs : ∀ w w', Inv2 w → idle w → run evs w = Some w' → idle w'.
Proof.
  induction evs as [|ev evs IH]; intros w w' HI Hidle Hrun; cbn [run] in Hrun.
  - by injection Hrun as <-.
  - destruct (exec ev w) as [w1|] eqn:E; simpl in Hrun; [|done].
    eapply IH; [| |done]; [by eapply Inv2_exec|by eapply idle_exec].
Qed.

(** X9.  When the route gives no upload id (or an empty one), the page
    never sends a request: whatever happens, nothing is in flight, no status
    and no error is ever shown, and the page stays on the loading spinner. *)
Theorem X9_no_upload_id_loads_forever
    (id : option string) (evs : list Event) (w : World) :
  Js.truthy id = false →
  run evs (mount id) = Some w →
  inflight w = []
  ∧ renderStatusContent (session w) = LoadingSpinner
  ∧ status (session w) = None
  ∧ showsErrorBanner (session w) = false.
Proof.
  intros Hid Hrun.
  assert (Hidle : idle (mount id)).
  { unfold mount. rewrite effect_body_unarmed by done. cbv zeta.
    unfold idle, rendered_closure, first_render. proj_simpl. by rewrite Hid. }
  destruct (idle_run evs _ _ (Inv2_mount id) Hidle Hrun)
    as (_ & Hf & _ & Hl & Hst & _ & _ & Her).
  unfold renderStatusContent, showsErrorBanner. by rewrite Hl, Her.
Qed.

Lemma X9_no_upload_id_loads_forever_witness :
  let w := default (mount None) (run [Tick 1; Dismiss; Tick 1] (mount None)) in
  inflight w = []
  ∧ renderStatusContent (session w) = LoadingSpinner
  ∧ status (session w) = None
  ∧ showsErrorBanner (session w) = false.
Proof.
  cbv zeta.
  apply (X9_no_upload_id_loads_forever None [Tick 1; Dismiss; Tick 1]).
  - reflexivity.
  - vm_compute. reflexivity.
Defined.

(** ** Requests *)

Definition sent (ev : Event) : nat :=
  match ev with Tick _ => 1 | _ => 0 end.

Definition ended (ev : Event) : nat :=
  match ev with Settle _ _ => 1 | _ => 0 end.

Lemma exec_requests ev w w' :
  Inv2 w → Js.truthy (uploadId w) = true →
  exec ev w = Some w' →
  uploadId w' = uploadId w
  ∧ (length (inflight w') + ended ev = length (inflight w) + sent ev)%nat.
Proof.
  intros [_ Hc] Hup Hex. destruct ev as [id|i o| | |]; unfold exec in Hex;
    cbn [sent ended].
  - destruct (list_find _ _) as [[k iv]|] eqn:Hfind; simpl in Hex; [|done].
    injection Hex as <-.
    apply list_find_Some in Hfind as (Hk & _ & _).
    rewrite Forall_forall in Hc.
    destruct (Hc (iv_callback iv)) as [Hu _].
    { unfold closures. rewrite elem_of_cons, elem_of_app, list_elem_of_fmap.
      right; right. exists iv. split; [done|]. by eapply list_elem_of_lookup_2. }
    unfold fetchAssessmentStatus_request. rewrite Hu, Hup.
    destruct w. unfold axios_get. proj_simpl. rewrite length_app.
    cbn [length]. split; [done|lia].
  - destruct (inflight w !! i) as [c|] eqn:Hi; simpl in Hex; [|done].
    injection Hex as <-. unfold seq.
    destruct (settled_frame c o (take_inflight i w)) as (-> & _ & -> & _).
    destruct (take_inflight_frame i w) as (_ & _ & _ & ->).
    rewrite length_delete by eauto.
    apply lookup_lt_Some in Hi. split; [by destruct w|lia].
  - destruct (attached w); [|done]. injection Hex as <-.
    destruct (rerun_effect_frame w) as (_ & -> & -> & _). split; [done|lia].
  - destruct (attached w); [|done]. injection Hex as <-.
    destruct w. unfold setError, on_session. proj_simpl. split; [done|lia].
  - destruct (attached w); [|done]. injection Hex as <-.
    unfold seq. rewrite effect_cleanup_unfold. destruct w.
    unfold set_attached. proj_simpl. split; [done|lia].
Qed.

Lemma run_requests evs : ∀ w w',
  Inv2 w → Js.truthy (uploadId w) = true →
  run evs w = Some w' →
  (length (inflight w') + sum_list (ended <$> evs)
   = length (inflight w) + sum_list (sent <$> evs))%nat.
Proof.
  induction evs as [|ev evs IH]; intros w w' HI Hup Hrun; cbn [run] in Hrun.
  - injection Hrun as <-. simpl. lia.
  - destruct (exec ev w) as [w1|] eqn:E; simpl in Hrun; [|done].
    destruct (exec_requests ev w w1 HI Hup E) as (Hu1 & Hlen).
    assert (HI1 : Inv2 w1) by (by eapply Inv2_exec).
    rewrite <- Hu1 in Hup.
    specialize (IH w1 w' HI1 Hup Hrun).
    rewrite !fmap_cons. simpl. lia.
Qed.

(** X12.  With an upload id, every firing of the interval sends exactly one
    request, nothing else sends one, and a request leaves the list of
    pending requests only when it ends (leaving the page cancels none): the
    requests in flight are the firings so far minus the requests ended. *)
Theorem X12_one_request_per_tick
    (id : option string) (evs : list Event) (w : World) :
  Js.truthy id = true →
  run evs (mount id) = Some w →
  (length (inflight w) + sum_list (ended <$> evs)
   = sum_list (sent <$> evs))%nat.
Proof.
  intros Hid Hrun.
  assert (Hup : Js.truthy (uploadId (mount id)) = true).
  { unfold mount. by rewrite effect_body_unarmed by done. }
  pose proof (run_requests evs _ _ (Inv2_mount id) Hup Hrun) as H.
  unfold mount in H. rewrite effect_body_unarmed in H by done.
  cbv zeta in H. proj_simpl. unfold first_render in H. proj_simpl.
  cbn [length] in H. lia.
Qed.

Lemma X12_one_request_per_tick_witness :
  let evs := (results_then_error ++ [Unmount])%list in
  (length (inflight (world_after evs)) + sum_list (ended <$> evs)
   = sum_list (sent <$> evs))%nat.
Proof.
  cbv zeta.
  apply (X12_one_request_per_tick (Some "job")
           (results_then_error ++ [Unmount])%list).
  - reflexivity.
  - vm_compute. reflexivity.
Defined.

(** ** The effect after the first response *)

Lemma mount_unfold id :
  mount id
  = {| session := {| status := None; results := ∅; summary := None;
                     isPolling := true; error := None;
                     isInitialLoading := true; lastStatusRef := None;
                     pollTimerRef := Some 1; isMountedRef := true |};
       intervals := [mkInterval 1 POLL_INTERVAL_MS
                       {| cl_uploadId := id; cl_isInitialLoading := true |}];
       nextTimerId := 2; inflight := [];
       uploadId := id; attached := true;
       effectDeps := {| cl_uploadId := id; cl_isInitialLoading := true |} |}.
Proof. reflexivity. Qed.

Lemma first_tick (u : string) :
  u ≠ "" →
  exec (Tick 1) (mount (Some u))
  = Some (axios_get {| cl_uploadId := Some u; cl_isInitialLoading := true |}
            (mount (Some u))).
Proof.
  intros Hu. rewrite mount_unfold. unfold exec, fetchAssessmentStatus_request.
  simpl. by rewrite bool_decide_eq_false_2.
Qed.

(** How the first request of a page with an upload id ends. *)
Lemma first_outcome (u : string) (o : Outcome) :
  u ≠ "" →
  run [Tick 1; Settle 0 o] (mount (Some u))
  = Some (fetchAssessmentStatus_settled
            {| cl_uploadId := Some u; cl_isInitialLoading := true |} o
            (mount (Some u))).
Proof.
  intros Hu. cbn [run]. rewrite first_tick by done.
  rewrite mount_unfold. reflexivity.
Qed.

(** X8.  When the first request of a page ends with a terminal status (a
    response saying [complete], [failed] or [not_found], or a 404), the
    timer is disarmed; the render that follows, in which [isInitialLoading]
    has changed, runs the effect again, and [startPolling] arms a new
    interval and sets the polling flag although the status is terminal. *)
Theorem X8_first_terminal_outcome_rearms
    (u : string) (o : Outcome) (st : AssessmentStatus) :
  u ≠ "" →
  reported o = Some st →
  shouldContinuePolling (Some st) = false →
  ∃ w1 w2,
    run [Tick 1; Settle 0 o] (mount (Some u)) = Some w1
    ∧ status (session w1) = Some st
    ∧ isPolling (session w1) = false
    ∧ intervals w1 = []
    ∧ exec Render w1 = Some w2
    ∧ status (session w2) = Some st
    ∧ isPolling (session w2) = true
    ∧ intervals w2
      = [mkInterval 2 5000
           {| cl_uploadId := Some u; cl_isInitialLoading := false |}].
Proof.
  intros Hu Hrep Hterm.
  set (c := {| cl_uploadId := Some u; cl_isInitialLoading := true |}).
  set (w1 := fetchAssessmentStatus_settled c o (mount (Some u))).
  assert (Hr1 : run [Tick 1; Settle 0 o] (mount (Some u)) = Some w1)
    by (by apply first_outcome).
  assert (Hfields :
    status (session w1) = Some st ∧ isPolling (session w1) = false
    ∧ intervals w1 = [] ∧ isInitialLoading (session w1) = false
    ∧ attached w1 = true ∧ uploadId w1 = Some u ∧ effectDeps w1 = c
    ∧ nextTimerId w1 = 2).
  { subst w1. unfold fetchAssessmentStatus_settled.
    destruct o as [data|e]; cbn [reported] in Hrep.
    - injection Hrep as Hrep. subst st.
      rewrite resolved_mounted by done. cbv zeta. proj_simpl.
      rewrite Hterm. cbn [negb]. rewrite orb_true_r.
      by rewrite (armed_ok_disarmed _ (inv2_armed _ (Inv2_mount (Some u)))).
    - destruct (isAxiosError e && is404 e) eqn:Hk; [|done].
      injection Hrep as Hrep. subst st. apply andb_true_iff in Hk as [Hax H404].
      rewrite rejected_404 by done. cbv zeta. proj_simpl.
      by rewrite (armed_ok_disarmed _ (inv2_armed _ (Inv2_mount (Some u)))). }
  destruct Hfields as (Hst & Hp & Hiv & Hl & Hatt & Hup & Hed & Hnx).
  assert (HI : Inv2 w1) by (eapply Inv2_run; [apply Inv2_mount|exact Hr1]).
  exists w1, (rerun_effect w1).
  repeat split; try done.
  - unfold exec. by rewrite Hatt.
  - by destruct (rerun_effect_frame w1) as (_ & _ & _ & -> & _).
  - rewrite rerun_effect_changed; [done|apply HI|].
    unfold rendered_closure. rewrite Hup, Hl, Hed. by subst c.
  - rewrite rerun_effect_changed; [|apply HI|].
    + cbv zeta. proj_simpl. unfold rendered_closure.
      by rewrite Hnx, Hup, Hl.
    + unfold rendered_closure. rewrite Hup, Hl, Hed. by subst c.
Qed.

Lemma X8_first_terminal_outcome_rearms_witness :
  ∃ w1 w2,
    run [Tick 1; Settle 0 (FetchError error_404)] (mount (Some "job")) = Some w1
    ∧ status (session w1) = Some not_found
    ∧ isPolling (session w1) = false
    ∧ intervals w1 = []
    ∧ exec Render w1 = Some w2
    ∧ status (session w2) = Some not_found
    ∧ isPolling (session w2) = true
    ∧ intervals w2
      = [mkInterval 2 5000
           {| cl_uploadId := Some "job"; cl_isInitialLoading := false |}].
Proof.
  apply (X8_first_terminal_outcome_rearms "job" (FetchError error_404) not_found).
  - discriminate.
  - reflexivity.
  - reflexivity.
Defined.

(** ** More on [normalizeResults] *)

(** X13.  Each side is normalised on its own.  Setting one side of the
    input, under any key but [__proto__], to an entry sets that side of the
    output to its display form and changes no other side; setting it to
    [undefined], or removing it, removes that side of the output; what the
    input holds under the key [__proto__] never reaches the output; absent
    and empty inputs give the empty output. *)
Theorem X13_normalize_side_by_side
    (raw : AssessmentResultMap) (side : string) (entry : option SideAssessment) :
  normalizeResults (Some (<[side := entry]> raw))
  = (if bool_decide (side = "__proto__") then normalizeResults (Some raw)
     else match entry with
          | Some sideData =>
              <[side := {| pickupUrl := pickup_image sideData;
                           resultUrl := annotated_return_image sideData
                                        ?? return_image sideData |}]>
                (normalizeResults (Some raw))
          | None => delete side (normalizeResults (Some raw))
          end)
  ∧ normalizeResults (Some (delete side raw))
    = delete side (normalizeResults (Some raw))
  ∧ normalizeResults None = ∅
  ∧ normalizeResults (Some ∅) = ∅.
Proof.
  split; [|split; [|by split]].
  - apply map_eq. intros k. rewrite normalizeResults_lookup.
    destruct (decide (side = k)) as [->|Hne].
    + case_bool_decide as Hp.
      * by rewrite normalizeResults_lookup, bool_decide_eq_true_2.
      * rewrite lookup_insert_eq. destruct entry as [d|].
        -- by rewrite lookup_insert_eq.
        -- by rewrite lookup_delete_eq.
    + rewrite lookup_insert_ne by done.
      destruct (bool_decide (side = "__proto__")).
      * by rewrite normalizeResults_lookup.
      * destruct entry as [d|].
        -- by rewrite lookup_insert_ne, normalizeResults_lookup.
        -- by rewrite lookup_delete_ne, normalizeResults_lookup.
  - apply map_eq. intros k. rewrite normalizeResults_lookup.
    destruct (decide (side = k)) as [->|Hne].
    + rewrite !lookup_delete_eq. by case_bool_decide.
    + by rewrite !lookup_delete_ne, normalizeResults_lookup.
Qed.

(** X14.  The output never has more sides than the input, its sides are
    sides of the input, and the "No results available" test of the complete
    view holds exactly when every entry of the input is [undefined] or sits
    under the key [__proto__]. *)
Theorem X14_no_results_iff_no_entries (raw : AssessmentResultMap) :
  dom (normalizeResults (Some raw)) ⊆ dom raw
  ∧ (size (normalizeResults (Some raw)) ≤ size raw)%nat
  ∧ (no_results_available (normalizeResults (Some raw)) = true
     ↔ ∀ side, side = "__proto__"
               ∨ raw !! side = None ∨ raw !! side = Some None).
Proof.
  assert (Hsub : dom (normalizeResults (Some raw)) ⊆ dom raw).
  { intros k. rewrite !elem_of_dom, normalizeResults_lookup.
    case_bool_decide; [by intros [? ?]|].
    destruct (raw !! k) as [[d|]|]; eauto. by intros [? ?]. }
  split; [done|]. split.
  - rewrite <- !size_dom. by apply subseteq_size.
  - unfold no_results_available. rewrite bool_decide_eq_true, map_size_empty_iff.
    split.
    + intros E k. pose proof (normalizeResults_lookup raw k) as Hk.
      rewrite E, lookup_empty in Hk.
      case_bool_decide; [by left|right].
      destruct (raw !! k) as [[d|]|]; [done|by right|by left].
    + intros Hall. apply map_eq. intros k.
      rewrite normalizeResults_lookup, lookup_empty.
      case_bool_decide as Hp; [done|].
      by destruct (Hall k) as [?|[->| ->]].
Qed.

(** * The upload form ([App]) *)

Module UploadForm.

(** ** Types *)

(** [Side]: the four string literals. *)
Inductive Side : Type :=
  | front
  | rear
  | left
  | right.

#[global] Instance Side_eq_dec : EqDecision Side.
Proof. solve_decision. Defined.

(** The string a side is. *)
Definition side_key (side : Side) : string :=
  match side with
  | front => "front"
  | rear => "rear"
  | left => "left"
  | right => "right"
  end.

Definition side_index (side : Side) : nat :=
  match side with front => 0 | rear => 1 | left => 2 | right => 3 end.

Definition index_side (n : nat) : option Side :=
  match n with
  | 0 => Some front
  | 1 => Some rear
  | 2 => Some left
  | 3 => Some right
  | _ => None
  end.

#[global] Instance Side_countable : Countable Side.
Proof.
  apply (inj_countable side_index index_side). by intros [].
Defined.

Definition ALL_SIDES : list Side := [front; rear; left; right].

Definition SIDE_LABELS (side : Side) : string :=
  match side with
  | front => "Front"
  | rear => "Rear"
  | left => "Left"
  | right => "Right"
  end.

Inductive Phase : Type :=
  | pickup_phase
  | return_phase.

Section Form.

(** The browser's [File] objects are opaque to the form. *)
Context {File : Type}.

(** [SideFiles]; [return_] is the field [return]. *)
Record SideFiles : Type := mkSideFiles {
  pickup : option File;
  return_ : option File
}.

(** The [useState] cells of [App]. *)
Record Form : Type := mkForm {
  selectedSides : list Side;
  files : gmap Side SideFiles;
  isLoading : bool;
  error : option Js.value;
  validationErrors : list string
}.

Definition initial : Form :=
  {| selectedSides := []; files := ∅; isLoading := false;
     error := None; validationErrors := [] |}.

Definition hasSelectedSides (f : Form) : bool :=
  bool_decide (0 < length (selectedSides f))%nat.

(** ** Handlers *)

Definition handleSideToggle (side : Side) (f : Form) : Form :=
  {| selectedSides :=
       if bool_decide (side ∈ selectedSides f)
       then filter (λ s, s ≠ side) (selectedSides f)
       else (selectedSides f ++ [side])%list;
     files := files f;
     isLoading := isLoading f;
     error := None;
     validationErrors := [] |}.

(** [{...(prev[side] ?? {}), [phase]: file}] *)
Definition with_phase (phase : Phase) (file : File) (old : option SideFiles)
  : SideFiles :=
  let base := default {| pickup := None; return_ := None |} old in
  match phase with
  | pickup_phase => {| pickup := Some file; return_ := return_ base |}
  | return_phase => {| pickup := pickup base; return_ := Some file |}
  end.

(** [fileList] is a [FileList | null]; [fileList?.[0]] is its head. *)
Definition handleFileChange (side : Side) (phase : Phase)
    (fileList : option (list File)) (f : Form) : Form :=
  match fileList ≫= head with
  | None =>
      {| selectedSides := selectedSides f; files := files f;
         isLoading := isLoading f; error := None; validationErrors := [] |}
  | Some file =>
      {| selectedSides := selectedSides f;
         files := <[side := with_phase phase file (files f !! side)]> (files f);
         isLoading := isLoading f; error := None; validationErrors := [] |}
  end.

(** [!sideFiles?.pickup || !sideFiles?.return]; a [File] is always truthy. *)
Definition isSideIncomplete (f : Form) (side : Side) : bool :=
  match files f !! side with
  | Some {| pickup := Some _; return_ := Some _ |} => false
  | _ => true
  end.

(** The [errors] array [validateForm] builds. *)
Definition validation_errors (f : Form) : list string :=
  ((if bool_decide (length (selectedSides f) = 0)
    then ["Please select at least one car side to inspect."] else [])
   ++ (selectedSides f ≫= λ side,
         if isSideIncomplete f side
         then [(SIDE_LABELS side
                ++ ": please upload both pickup and return images.")%string]
         else []))%list.

(** [validateForm]: the state it leaves and the value it returns. *)
Definition validateForm (f : Form) : Form * bool :=
  let errors := validation_errors f in
  ({| selectedSides := selectedSides f; files := files f;
      isLoading := isLoading f; error := error f;
      validationErrors := errors |},
   bool_decide (length errors = 0)).

(** The fields [handleSubmit] appends for one side.  [handleSubmit] reads
    [files[side]!] only after [validateForm] has passed, when every selected
    side has an entry; the case without an entry, in which the code would
    throw, does not arise there and gives no field here. *)
Definition side_fields (f : Form) (side : Side) : list (string * File) :=
  match files f !! side with
  | Some sideFiles =>
      ((match pickup sideFiles with
        | Some file => [((side_key side ++ "-pickup")%string, file)]
        | None => []
        end)
       ++ (match return_ sideFiles with
           | Some file => [((side_key side ++ "-return")%string, file)]
           | None => []
           end))%list
  | None => []
  end.

(** [handleSubmit] up to its [await]: the state it leaves and the form data
    it posts, if it posts. *)
Definition handleSubmit_start (f : Form) : Form * option (list (string * File)) :=
  let f0 := {| selectedSides := selectedSides f; files := files f;
               isLoading := isLoading f; error := None;
               validationErrors := [] |} in
  let '(f1, valid) := validateForm f0 in
  if negb valid then (f1, None)
  else
    let formData := selectedSides f1 ≫= side_fields f1 in
    ({| selectedSides := selectedSides f1; files := files f1;
        isLoading := true; error := error f1;
        validationErrors := validationErrors f1 |},
     Some formData).

(** How the post ends: a response with its [upload_id], or a thrown value. *)
Inductive PostOutcome : Type :=
  | PostOk (upload_id : option string)
  | PostError (e : Thrown).

Definition post_error_message (e : Thrown) : option Js.value :=
  if isAxiosError e then
    Js.or (response e ≫= res_detail)
      (Js.or (response e ≫= res_message)
         (Js.or (message e)
            (Some (Js.str "An unexpected error occurred while starting the assessment."))))
  else
    message e
    ?? Some (Js.str "An unexpected error occurred while starting the assessment.").

(** [handleSubmit] after its [await]: the state it leaves and the route it
    navigates to, if it navigates. *)
Definition handleSubmit_end (o : PostOutcome) (f : Form) : Form * option string :=
  let set_error (v : option Js.value) :=
    {| selectedSides := selectedSides f; files := files f;
       isLoading := false; error := v;
       validationErrors := validationErrors f |} in
  match o with
  | PostOk uploadId =>
      if Js.truthy uploadId then
        ({| selectedSides := selectedSides f; files := files f;
            isLoading := false; error := error f;
            validationErrors := validationErrors f |},
         Some ("/assessment/" ++ default "" uploadId))
      else
        (set_error
           (Some (Js.str "Upload response did not include an assessment ID. Please try again or contact support.")),
         None)
  | PostError e => (set_error (post_error_message e), None)
  end.

Definition resetForm (f : Form) : Form :=
  {| selectedSides := []; files := ∅; isLoading := isLoading f;
     error := None; validationErrors := [] |}.

(** [disabled={isLoading || !hasSelectedSides}] of the submit button. *)
Definition submit_disabled (f : Form) : bool :=
  isLoading f || negb (hasSelectedSides f).

(** [sideFiles[phase]] of a side that may have no files yet. *)
Definition phase_file (phase : Phase) (sideFiles : option SideFiles) : option File :=
  sideFiles ≫= match phase with
               | pickup_phase => pickup
               | return_phase => return_
               end.

Definition other_phase (phase : Phase) : Phase :=
  match phase with
  | pickup_phase => return_phase
  | return_phase => pickup_phase
  end.

(** ** The selection *)

Lemma toggle_NoDup side f :
  NoDup (selectedSides f) → NoDup (selectedSides (handleSideToggle side f)).
Proof.
  intros Hnd. cbn [handleSideToggle selectedSides]. case_bool_decide as Hin.
  - by apply NoDup_filter.
  - apply NoDup_app. split; [done|]. split; [|apply NoDup_singleton].
    intros x Hx Hs. apply list_elem_of_singleton in Hs as ->. done.
Qed.

Lemma toggle_elem side f s :
  s ∈ selectedSides (handleSideToggle side f)
  ↔ (if decide (s = side) then s ∉ selectedSides f else s ∈ selectedSides f).
Proof.
  cbn [handleSideToggle selectedSides]. case_bool_decide as Hin.
  - rewrite list_elem_of_filter. destruct (decide (s = side)) as [->|Hne].
    + split; [by intros [? _]|done].
    + split; [by intros [_ ?]|done].
  - rewrite elem_of_app, list_elem_of_singleton.
    destruct (decide (s = side)) as [->|Hne].
    + split; [done|by right].
    + split; [by intros [?|?]|by left].
Qed.

Lemma sides_length (l : list Side) : NoDup l → (length l ≤ 4)%nat.
Proof.
  intros Hnd. change 4 with (length ALL_SIDES).
  apply submseteq_length, NoDup_submseteq; [done|].
  intros [] _; unfold ALL_SIDES; set_solver.
Qed.

(** X15.  Toggling a side in a selection without repetitions flips that
    side and no other, keeps the selection without repetitions (so it never
    holds more than four sides), leaves the chosen files alone, and done
    twice gives back the selection it started from, up to order. *)
Theorem X15_toggle_flips_one_side (side : Side) (f : Form) :
  NoDup (selectedSides f) →
  let f' := handleSideToggle side f in
  NoDup (selectedSides f')
  ∧ (length (selectedSides f') ≤ 4)%nat
  ∧ (∀ s, s ∈ selectedSides f'
          ↔ (if decide (s = side) then s ∉ selectedSides f
             else s ∈ selectedSides f))
  ∧ selectedSides (handleSideToggle side f') ≡ₚ selectedSides f
  ∧ files f' = files f.
Proof.
  intros Hnd. cbv zeta.
  pose proof (toggle_NoDup side f Hnd) as Hnd'.
  split; [done|]. split; [by apply sides_length|].
  split; [intros s; apply toggle_elem|]. split; [|done].
  apply NoDup_Permutation; [by apply toggle_NoDup|done|].
  intros s. rewrite toggle_elem.
  destruct (decide (s = side)) as [->|Hne].
  - pose proof (toggle_elem side f side) as Hside.
    rewrite decide_True in Hside by done.
    destruct (decide (side ∈ selectedSides f)) as [Hin|Hout]; tauto.
  - by rewrite toggle_elem, decide_False.
Qed.

(** ** Validation and submission *)

(** The messages about sides, one per selected side that lacks a file. *)
Definition side_errors (f : Form) (sel : list Side) : list string :=
  sel ≫= λ side,
    if isSideIncomplete f side
    then [(SIDE_LABELS side
           ++ ": please upload both pickup and return images.")%string]
    else [].

Lemma side_errors_length f sel :
  length (side_errors f sel)
  = length (filter (λ side, isSideIncomplete f side = true) sel).
Proof.
  induction sel as [|side sel IH]; [done|].
  unfold side_errors in *. cbn [mbind list_bind]. rewrite length_app, IH.
  rewrite filter_cons. destruct (isSideIncomplete f side) eqn:E.
  - by rewrite decide_True.
  - by rewrite decide_False.
Qed.

Lemma side_errors_nil f sel :
  side_errors f sel = []
  ↔ ∀ side, side ∈ sel → isSideIncomplete f side = false.
Proof.
  induction sel as [|side sel IH].
  - split; [|done]. intros _ s Hs. by apply elem_of_nil in Hs.
  - unfold side_errors in *. cbn [mbind list_bind]. split.
    + intros E s Hs. apply app_eq_nil in E as [E1 E2].
      apply elem_of_cons in Hs as [->|Hs]; [|by apply IH].
      by destruct (isSideIncomplete f side).
    + intros Hall. rewrite (Hall side) by left. cbn [app].
      apply IH. intros s Hs. apply Hall. by right.
Qed.

Lemma validation_passes_iff (f : Form) :
  (validateForm f).2 = true
  ↔ selectedSides f ≠ []
    ∧ ∀ side, side ∈ selectedSides f → isSideIncomplete f side = false.
Proof.
  cbn [validateForm snd]. unfold validation_errors.
  fold (side_errors f (selectedSides f)).
  rewrite bool_decide_eq_true, length_zero_iff_nil.
  rewrite <- side_errors_nil. destruct (selectedSides f) as [|s l] eqn:E.
  - cbn. split; [done|]. by intros [? _].
  - rewrite bool_decide_eq_false_2 by done.
    cbn [app]. split; [by intros ->|by intros [_ ->]].
Qed.

(** X16.  [validateForm] answers [true] exactly when at least one side is
    selected and every selected side has both its pickup and its return
    file; it writes one message per selected side that lacks a file, and one
    more when nothing is selected. *)
Theorem X16_validation_passes_iff_complete (f : Form) :
  ((validateForm f).2 = true
   ↔ selectedSides f ≠ []
     ∧ ∀ side, side ∈ selectedSides f → isSideIncomplete f side = false)
  ∧ length (validationErrors (validateForm f).1)
    = ((if bool_decide (selectedSides f = []) then 1 else 0)
       + length (filter (λ side, isSideIncomplete f side = true)
                   (selectedSides f)))%nat.
Proof.
  split; [apply validation_passes_iff|].
  cbn [validateForm fst validationErrors]. unfold validation_errors.
  fold (side_errors f (selectedSides f)).
  rewrite length_app, side_errors_length.
  destruct (selectedSides f) as [|s l]; [done|].
  rewrite !bool_decide_eq_false_2 by done. done.
Qed.

Lemma complete_side_fields f side :
  isSideIncomplete f side = false →
  ∃ p r, files f !! side = Some {| pickup := Some p; return_ := Some r |}
         ∧ side_fields f side
           = [((side_key side ++ "-pickup")%string, p);
              ((side_key side ++ "-return")%string, r)].
Proof.
  unfold isSideIncomplete, side_fields.
  destruct (files f !! side) as [[[p|] [r|]]|]; try done.
  intros _. by exists p, r.
Qed.

Lemma complete_form_data f sel :
  (∀ side, side ∈ sel → isSideIncomplete f side = false) →
  (sel ≫= side_fields f).*1
  = sel ≫= (λ side, [(side_key side ++ "-pickup")%string;
                     (side_key side ++ "-return")%string]).
Proof.
  induction sel as [|side sel IH]; intros Hall; [done|].
  cbn [mbind list_bind]. rewrite fmap_app, IH by (intros s Hs; apply Hall; by right).
  destruct (complete_side_fields f side) as (p & r & _ & ->); [apply Hall; left|].
  done.
Qed.

Lemma handleSubmit_start_unfold f :
  handleSubmit_start f
  = if bool_decide (length (validation_errors f) = 0)
    then ({| selectedSides := selectedSides f; files := files f;
             isLoading := true; error := None; validationErrors := [] |},
          Some (selectedSides f ≫= side_fields f))
    else ({| selectedSides := selectedSides f; files := files f;
             isLoading := isLoading f; error := None;
             validationErrors := validation_errors f |}, None).
Proof.
  unfold handleSubmit_start, validateForm.
  change (validation_errors _) with (validation_errors f).
  case_bool_decide as Hn; cbn [negb]; [|done].
  apply length_zero_iff_nil in Hn. by rewrite Hn.
Qed.

(** X17.  When [handleSubmit] posts, it has raised the loading flag and
    cleared both messages, and the form data holds, for every selected side
    in the order of the selection, the field [<side>-pickup] then the field
    [<side>-return], carrying the two files chosen for that side, and
    nothing else. *)
Theorem X17_submit_posts_both_files_per_side
    (f f' : Form) (formData : list (string * File)) :
  handleSubmit_start f = (f', Some formData) →
  isLoading f' = true ∧ error f' = None ∧ validationErrors f' = []
  ∧ selectedSides f ≠ []
  ∧ formData.*1
    = selectedSides f ≫= (λ side, [(side_key side ++ "-pickup")%string;
                                   (side_key side ++ "-return")%string])
  ∧ (∀ side, side ∈ selectedSides f →
       ∃ p r, files f !! side = Some {| pickup := Some p; return_ := Some r |}
              ∧ ((side_key side ++ "-pickup")%string, p) ∈ formData
              ∧ ((side_key side ++ "-return")%string, r) ∈ formData).
Proof.
  rewrite handleSubmit_start_unfold. case_bool_decide as Hn; [|done].
  intros [= <- <-]. cbn [isLoading error validationErrors].
  assert (Hv : (validateForm f).2 = true) by (by apply bool_decide_eq_true).
  apply validation_passes_iff in Hv as [Hne Hall].
  repeat split; try done.
  - by apply complete_form_data.
  - intros side Hin.
    destruct (complete_side_fields f side (Hall side Hin)) as (p & r & Hf & Hsf).
    exists p, r. split; [done|].
    split; apply list_elem_of_bind; exists side; (split; [|done]);
      rewrite Hsf; set_solver.
Qed.

(** X18.  [handleSubmit] posts nothing exactly when nothing is selected or
    some selected side lacks a file; it then leaves the loading flag as it
    was and shows at least one validation message. *)
Theorem X18_invalid_form_posts_nothing (f : Form) :
  ((handleSubmit_start f).2 = None
   ↔ selectedSides f = []
     ∨ ∃ side, side ∈ selectedSides f ∧ isSideIncomplete f side = true)
  ∧ ((handleSubmit_start f).2 = None →
     isLoading (handleSubmit_start f).1 = isLoading f
     ∧ validationErrors (handleSubmit_start f).1 ≠ []).
Proof.
  rewrite handleSubmit_start_unfold.
  pose proof (validation_passes_iff f) as Hv.
  cbn [validateForm snd] in Hv. case_bool_decide as Hn.
  - cbn [snd]. split; [|done]. split; [done|].
    destruct (proj1 Hv eq_refl) as [Hne Hall].
    intros [?|(side & Hin & Hinc)]; [done|].
    by rewrite (Hall side Hin) in Hinc.
  - cbn [fst snd isLoading validationErrors]. split.
    + split; [intros _|done].
      destruct (selectedSides f) as [|s l] eqn:E; [by left|right].
      destruct (decide (Forall (λ side, isSideIncomplete f side = false) (s :: l)))
        as [Hall|Hnot].
      * exfalso. assert (Hft : false = true); [|done].
        apply Hv. split; [done|]. by apply Forall_forall.
      * apply not_Forall_Exists in Hnot; [|apply _].
        apply Exists_exists in Hnot as (side & Hin & Hinc).
        exists side. split; [done|]. cbn in Hinc.
        by destruct (isSideIncomplete f side).
    + intros _. split; [done|]. intros E. apply Hn. by rewrite E.
Qed.

(** ** Choosing files *)

(** X19.  Choosing a file for one phase of one side stores it there, keeps
    the file of the other phase of that side and the files of every other
    side, and does not touch the selection; an absent or empty file list
    changes no file.  Once both phases of a side have been chosen, in
    either order, the side is no longer incomplete. *)
Theorem X19_file_choice_round_trip
    (side : Side) (phase : Phase) (file : File) (rest : list File) (f : Form) :
  let f' := handleFileChange side phase (Some (file :: rest)) f in
  phase_file phase (files f' !! side) = Some file
  ∧ phase_file (other_phase phase) (files f' !! side)
    = phase_file (other_phase phase) (files f !! side)
  ∧ (∀ other, other ≠ side → files f' !! other = files f !! other)
  ∧ selectedSides f' = selectedSides f
  ∧ files (handleFileChange side phase None f) = files f
  ∧ files (handleFileChange side phase (Some []) f) = files f
  ∧ (∀ file2 rest2,
       isSideIncomplete
         (handleFileChange side (other_phase phase) (Some (file2 :: rest2)) f')
         side = false).
Proof.
  cbv zeta. cbn [handleFileChange mbind option_bind head files selectedSides].
  rewrite lookup_insert_eq. repeat split.
  - by destruct phase.
  - destruct phase, (files f !! side) as [[p r]|]; done.
  - intros other Hne. by rewrite lookup_insert_ne.
  - intros file2 rest2. unfold isSideIncomplete. cbn [files].
    rewrite !lookup_insert_eq. by destruct phase.
Qed.

(** ** The end of a submission *)

(** X20.  However the post ends, the loading flag is lowered and the
    selection and files are kept.  The form navigates exactly when the
    response carries a non-empty upload id, to [/assessment/<id>], and then
    sets no message; a response without one, and any axios error, leave a
    truthy message (so does any other thrown value, unless its [message] is
    a falsy value such as the empty string). *)
Theorem X20_submit_end_lowers_loading (o : PostOutcome) (f : Form) :
  let f' := (handleSubmit_end o f).1 in
  let route := (handleSubmit_end o f).2 in
  isLoading f' = false
  ∧ selectedSides f' = selectedSides f ∧ files f' = files f
  ∧ (∀ r, route = Some r
          ↔ ∃ id, o = PostOk (Some id) ∧ id ≠ ""
                  ∧ r = ("/assessment/" ++ id)%string)
  ∧ (is_Some route → error f' = error f)
  ∧ (route = None →
     (∀ e, o = PostError e → isAxiosError e = false →
        ∀ v, message e = Some v → Js.is_truthy v = true) →
     Js.truthy_any (error f') = true).
Proof.
  cbv zeta.
  destruct o as [[id|]|e].
  - destruct (decide (id = "")) as [->|Hne].
    + cbn. split; [done|]. split; [done|]. split; [done|]. split.
      * intros r. split; [done|]. by intros (id & [= <-] & Hne & _).
      * split; [by intros [? ?]|done].
    + cbn [handleSubmit_end Js.truthy]. rewrite bool_decide_eq_false_2 by done.
      cbn [negb default fst snd isLoading selectedSides files error].
      split; [done|]. split; [done|]. split; [done|]. split.
      * intros r. split.
        -- intros [= <-]. by exists id.
        -- by intros (id' & [= <-] & _ & ->).
      * split; [done|]. intros Hr. discriminate Hr.
  - cbn. split; [done|]. split; [done|]. split; [done|]. split.
    + intros r. split; [done|]. by intros (id & ? & _).
    + split; [by intros [? ?]|done].
  - cbn [handleSubmit_end fst snd isLoading selectedSides files error].
    split; [done|]. split; [done|]. split; [done|]. split.
    + intros r. split; [done|]. by intros (id & ? & _).
    + split; [by intros [? ?]|].
      intros _ Hmsg. specialize (Hmsg e eq_refl).
      unfold post_error_message, Js.or, Js.nullish.
      destruct (isAxiosError e).
      * repeat (case_match; try done).
      * destruct (message e) as [m|]; [|done]. cbn [Js.truthy_any].
        by apply Hmsg.
Qed.

(** X21.  While the submit button is enabled (not loading, at least one
    side selected), validation never produces the message about an empty
    selection: every message it can produce names an incomplete side. *)
Theorem X21_enabled_submit_never_reports_empty_selection (f : Form) :
  submit_disabled f = false →
  ("Please select at least one car side to inspect." ∉ validation_errors f)
  ∧ (∀ msg, msg ∈ validation_errors f →
       ∃ side, side ∈ selectedSides f ∧ isSideIncomplete f side = true
               ∧ msg = (SIDE_LABELS side
                        ++ ": please upload both pickup and return images.")%string).
Proof.
  unfold submit_disabled, hasSelectedSides. intros Hen.
  apply orb_false_iff in Hen as [_ Hsel].
  apply negb_false_iff, bool_decide_eq_true in Hsel.
  assert (Hmsgs : ∀ msg, msg ∈ validation_errors f →
            ∃ side, side ∈ selectedSides f ∧ isSideIncomplete f side = true
                    ∧ msg = (SIDE_LABELS side
                             ++ ": please upload both pickup and return images.")%string).
  { intros msg. unfold validation_errors.
    rewrite bool_decide_eq_false_2 by lia. cbn [app].
    intros Hin. apply list_elem_of_bind in Hin as (side & Hin & Hside).
    exists side. split; [done|].
    destruct (isSideIncomplete f side); [|by apply elem_of_nil in Hin].
    by apply list_elem_of_singleton in Hin. }
  split; [|done]. intros Hin.
  destruct (Hmsgs _ Hin) as (side & _ & _ & E). by destruct side.
Qed.

End Form.

Arguments SideFiles : clear implicits.
Arguments Form : clear implicits.

Lemma X15_toggle_flips_one_side_witness :
  let f : Form string :=
    {| selectedSides := [front; left]; files := ∅; isLoading := false;
       error := None; validationErrors := [] |} in
  selectedSides (handleSideToggle front f) = [left]
  ∧ selectedSides (handleSideToggle front (handleSideToggle front f))
    ≡ₚ [front; left].
Proof.
  cbv zeta. split; [reflexivity|].
  refine (proj1 (proj2 (proj2 (proj2
    (X15_toggle_flips_one_side front
       {| selectedSides := [front; left]; files := ∅; isLoading := false;
          error := None; validationErrors := [] |} _))))).
  apply (bool_decide_unpack _). vm_compute. reflexivity.
Defined.

(** A form with two sides selected and both files chosen for each. *)
Definition two_sides_ready : Form string :=
  {| selectedSides := [front; rear];
     files := {[ front := {| pickup := Some "front-before.jpg";
                             return_ := Some "front-after.jpg" |};
                 rear := {| pickup := Some "rear-before.jpg";
                            return_ := Some "rear-after.jpg" |} ]};
     isLoading := false; error := None; validationErrors := [] |}.

Lemma X17_submit_posts_both_files_per_side_witness :
  (default [] (handleSubmit_start two_sides_ready).2).*1
  = ["front-pickup"; "front-return"; "rear-pickup"; "rear-return"].
Proof.
  destruct (X17_submit_posts_both_files_per_side two_sides_ready
              (handleSubmit_start two_sides_ready).1
              (default [] (handleSubmit_start two_sides_ready).2))
    as (_ & _ & _ & _ & Hnames & _).
  - vm_compute. reflexivity.
  - rewrite Hnames. reflexivity.
Defined.

Lemma X21_enabled_submit_never_reports_empty_selection_witness :
  "Please select at least one car side to inspect."
  ∉ validation_errors
      ({| selectedSides := [front]; files := ∅; isLoading := false;
          error := None; validationErrors := [] |} : Form string).
Proof.
  exact (proj1 (X21_enabled_submit_never_reports_empty_selection
                  ({| selectedSides := [front]; files := ∅; isLoading := false;
                      error := None; validationErrors := [] |} : Form string)
                  eq_refl)).
Defined.

End UploadForm.
